(** * Benefits API: validation rules and route handlers

    A shallow embedding of the Express route group of the "beneficios"
    collection ([routes/beneficios.js]): the declarative rule list
    [validaBeneficio], and the six handlers (list, get by id, search by
    name, delete, create, update), each a thin wrapper around one storage
    driver call inside JavaScript's [try]/[catch].

    Conventions of the embedding.
    - A JavaScript string is the list of its code points ([jsstring]);
      literals of the source are written [u8 "..."], which decodes the
      UTF-8 bytes of the Rocq literal.
    - A JavaScript object used as a record (request body, stored document,
      response body) is a finite map from property names to values.
    - The handlers live in a state-and-exception monad over the [World]:
      the stored collection, the driver's identifier counter and the log of
      driver calls issued so far.  A handler that ends in [inl e] has let
      the exception [e] escape (no response was produced).
    - The pieces the route group receives from outside (the identifier
      constructor obtained from the connector, the regular-expression
      engine and the ordering of the storage server) are the fields of the
      class [Driver]. *)

From Stdlib Require DecimalPos.
From stdpp Require Import gmap strings list fin_maps.

Set Warnings "-register-all".
Set Default Proof Using "Type".

Local Open Scope Z_scope.

(** ** JavaScript strings *)

Abbreviation jsstring := (list N).

Module Utf8.

Definition byte_of (a : Ascii.ascii) : N := Ascii.N_of_ascii a.

Fixpoint bytes (s : string) : list N :=
  match s with
  | EmptyString => []
  | String a r => byte_of a :: bytes r
  end.

(** Continuation bytes carry six payload bits. *)
Definition cont (b : N) : N := N.land b 63.

Fixpoint decode (fuel : nat) (bs : list N) : jsstring :=
  match fuel with
  | O => []
  | S fuel =>
      match bs with
      | [] => []
      | b :: r =>
          if (b <? 128)%N then b :: decode fuel r
          else if (b <? 224)%N then
            match r with
            | c1 :: r1 => (N.land b 31 * 64 + cont c1)%N :: decode fuel r1
            | _ => []
            end
          else if (b <? 240)%N then
            match r with
            | c1 :: c2 :: r2 =>
                (N.land b 15 * 4096 + cont c1 * 64 + cont c2)%N :: decode fuel r2
            | _ => []
            end
          else
            match r with
            | c1 :: c2 :: c3 :: r3 =>
                (N.land b 7 * 262144 + cont c1 * 4096 + cont c2 * 64 + cont c3)%N
                  :: decode fuel r3
            | _ => []
            end
      end
  end.

End Utf8.

(** The code points of a source literal. *)
Definition u8 (s : string) : jsstring :=
  let bs := Utf8.bytes s in Utf8.decode (length bs) bs.

#[global] Arguments u8 : simpl never.

(** ** Values

    The values of request bodies, stored documents and response bodies:
    JSON, plus the identifiers [VOid] the storage layer creates (a request
    body parsed from JSON holds none).  Numbers are the integers. *)

Inductive Value :=
| VNull
| VBool (b : bool)
| VNum (z : Z)
| VStr (s : jsstring)
| VArr (l : list Value)
| VObj (m : gmap string Value)
| VOid (o : N).

Abbreviation Doc := (gmap string Value).

#[global] Instance Value_eq_dec : EqDecision Value.
Proof.
  refine (fix go (x y : Value) {struct x} : Decision (x = y) :=
    let _ : EqDecision Value := go in
    match x, y with
    | VNull, VNull => left _
    | VBool a, VBool b => cast_if (decide (a = b))
    | VNum a, VNum b => cast_if (decide (a = b))
    | VStr a, VStr b => cast_if (decide (a = b))
    | VArr a, VArr b => cast_if (decide (a = b))
    | VObj a, VObj b => cast_if (decide (a = b))
    | VOid a, VOid b => cast_if (decide (a = b))
    | _, _ => right _
    end); abstract congruence.
Defined.

(** ** Strings of the JavaScript runtime *)

Module Js.

(** White space as [\s] and [parseInt] see it. *)
Definition is_ws (c : N) : bool :=
  ((9 <=? c) && (c <=? 13) || (c =? 32) || (c =? 160) || (c =? 5760)
   || (8192 <=? c) && (c <=? 8202) || (c =? 8232) || (c =? 8233)
   || (c =? 8239) || (c =? 8287) || (c =? 12288) || (c =? 65279))%N.

Fixpoint ltrim (s : jsstring) : jsstring :=
  match s with
  | c :: r => if is_ws c then ltrim r else s
  | [] => []
  end.

Definition rtrim (s : jsstring) : jsstring := reverse (ltrim (reverse s)).

Definition is_digit (c : N) : bool := ((48 <=? c) && (c <=? 57))%N.

Fixpoint uint_digits (d : Decimal.uint) : jsstring :=
  match d with
  | Decimal.Nil => []
  | Decimal.D0 r => 48%N :: uint_digits r
  | Decimal.D1 r => 49%N :: uint_digits r
  | Decimal.D2 r => 50%N :: uint_digits r
  | Decimal.D3 r => 51%N :: uint_digits r
  | Decimal.D4 r => 52%N :: uint_digits r
  | Decimal.D5 r => 53%N :: uint_digits r
  | Decimal.D6 r => 54%N :: uint_digits r
  | Decimal.D7 r => 55%N :: uint_digits r
  | Decimal.D8 r => 56%N :: uint_digits r
  | Decimal.D9 r => 57%N :: uint_digits r
  end.

(** [String(n)] for an integer [n]. *)
Definition of_Z (z : Z) : jsstring :=
  match Z.to_int z with
  | Decimal.Pos d => uint_digits d
  | Decimal.Neg d => 45%N :: uint_digits d
  end.

Definition hex_digit (n : N) : N := (if n <? 10 then 48 + n else 87 + n)%N.

(** [ObjectId.prototype.toString]: twenty-four hexadecimal digits. *)
Definition hex24 (o : N) : jsstring :=
  (fun i => hex_digit ((o / 16 ^ (23 - N.of_nat i)) mod 16)%N) <$> seq 0 24.

(** [String(v)]; an array joins its elements with commas, [null] elements
    being empty. *)
Fixpoint String_ (v : Value) : jsstring :=
  match v with
  | VNull => u8 "null"
  | VBool true => u8 "true"
  | VBool false => u8 "false"
  | VNum z => of_Z z
  | VStr s => s
  | VArr l =>
      let elt x := match x with VNull => [] | _ => String_ x end in
      (fix join (l : list Value) : jsstring :=
         match l with
         | [] => []
         | [x] => elt x
         | x :: r => elt x ++ 44%N :: join r
         end) l
  | VObj _ => u8 "[object Object]"
  | VOid o => hex24 o
  end.

(** The text a template literal interpolates for a possibly missing
    property. *)
Definition interpolate (x : option jsstring) : jsstring :=
  match x with Some s => s | None => u8 "undefined" end.

End Js.

(** ** The string validators and sanitizers the rules use *)

Module StrCheck.

(** [isEmpty(str)]: the string has no character. *)
Definition isEmpty (s : jsstring) : bool :=
  match s with [] => true | _ => false end.

(** [isLength(str, {min, max})], counting code points; a missing [min] is
    0 and a missing [max] is no bound. *)
Definition isLength (min : option nat) (max : option nat) (s : jsstring) : bool :=
  let len := length s in
  (default 0%nat min <=? len)%nat
  && match max with Some m => (len <=? m)%nat | None => true end.

Definition all_digits (s : jsstring) : bool := forallb Js.is_digit s.

Fixpoint skip_digits (s : jsstring) : jsstring :=
  match s with
  | c :: r => if Js.is_digit c then skip_digits r else s
  | [] => []
  end.

(** [isNumeric(str)]: the pattern [^[+-]?([0-9]*[.])?[0-9]+$]. *)
Definition isNumeric (s : jsstring) : bool :=
  let unsigned :=
    match s with
    | c :: r => if ((c =? 43) || (c =? 45))%N then r else s
    | [] => s
    end in
  match skip_digits unsigned with
  | [] => negb (isEmpty unsigned)
  | c :: frac => (c =? 46)%N && negb (isEmpty frac) && all_digits frac
  end.

(** The anchored patterns [matches] is given: a sequence of atoms, each
    repeated a fixed number of times, between [^] and [$]. *)
Inductive Atom :=
| Digit
| Lit (c : N).

Definition atom_ok (a : Atom) (c : N) : bool :=
  match a with
  | Digit => Js.is_digit c
  | Lit d => (c =? d)%N
  end.

Fixpoint repeat_ok (a : Atom) (n : nat) (s : jsstring) : option jsstring :=
  match n with
  | O => Some s
  | S n =>
      match s with
      | c :: r => if atom_ok a c then repeat_ok a n r else None
      | [] => None
      end
  end.

Fixpoint matches (p : list (Atom * nat)) (s : jsstring) : bool :=
  match p with
  | [] => isEmpty s
  | (a, n) :: p =>
      match repeat_ok a n s with
      | Some r => matches p r
      | None => false
      end
  end.

(** [trim(str)]: white space removed at both ends. *)
Definition trim (s : jsstring) : jsstring := Js.rtrim (Js.ltrim s).

End StrCheck.

(** The pattern [/^\d{4}-\d{2}-\d{2}$/] of the [data] rule. *)
Definition date_pattern : list (StrCheck.Atom * nat) :=
  [ (StrCheck.Digit, 4%nat); (StrCheck.Lit 45, 1%nat); (StrCheck.Digit, 2%nat);
    (StrCheck.Lit 45, 1%nat); (StrCheck.Digit, 2%nat) ].

(** ** Requests *)

Record Request := {
  query : gmap string jsstring;
  params : gmap string jsstring;
  body : Doc
}.

Definition with_body (b : Doc) (req : Request) : Request :=
  {| query := query req; params := params req; body := b |}.

(** ** The validation chains

    The fragment of the validation library the rule list uses.  A chain is
    built by method calls, each adding an item to its stack; when the chain
    runs as a middleware, the items run in order on the value of the field
    in the request body (the fields are looked up in the body, which is
    where the API's clients put them; property names hold no dot). *)

Module Check.

Inductive Validator :=
| IsEmpty
| IsLength (min max : option nat)
| IsNumeric
| Matches (p : list (StrCheck.Atom * nat)).

Inductive Sanitizer :=
| Trim.

Inductive ContextItem :=
| Validation (negated : bool) (v : Validator) (message : option jsstring)
| Sanitization (s : Sanitizer).

Record Chain := {
  field : string;
  stack : list ContextItem;
  negateNext : bool
}.

(** *** Building a chain *)

Definition check (f : string) : Chain :=
  {| field := f; stack := []; negateNext := false |}.

Definition not_ (c : Chain) : Chain :=
  {| field := field c; stack := stack c; negateNext := true |}.

Definition addValidator (v : Validator) (c : Chain) : Chain :=
  {| field := field c;
     stack := stack c ++ [Validation (negateNext c) v None];
     negateNext := false |}.

Definition addSanitizer (s : Sanitizer) (c : Chain) : Chain :=
  {| field := field c;
     stack := stack c ++ [Sanitization s];
     negateNext := negateNext c |}.

Definition isEmpty : Chain -> Chain := addValidator IsEmpty.
Definition notEmpty (c : Chain) : Chain := isEmpty (not_ c).
Definition isLength (min max : option nat) : Chain -> Chain :=
  addValidator (IsLength min max).
Definition isNumeric : Chain -> Chain := addValidator IsNumeric.
Definition matches (p : list (StrCheck.Atom * nat)) : Chain -> Chain :=
  addValidator (Matches p).
Definition trim : Chain -> Chain := addSanitizer Trim.

(** [withMessage] names the message of the validator added last; the
    sanitizers added since are passed over. *)
Fixpoint set_last_message (m : jsstring) (rev_stack : list ContextItem)
  : list ContextItem :=
  match rev_stack with
  | [] => []
  | Validation n v _ :: r => Validation n v (Some m) :: r
  | Sanitization s :: r => Sanitization s :: set_last_message m r
  end.

Definition withMessage (m : string) (c : Chain) : Chain :=
  {| field := field c;
     stack := reverse (set_last_message (u8 m) (reverse (stack c)));
     negateNext := negateNext c |}.

(** *** Running a chain *)

Record VError := {
  value : option Value;
  msg : jsstring;
  param : jsstring;
  location : jsstring
}.

Fixpoint segments (s : string) : list string :=
  match s with
  | EmptyString => [EmptyString]
  | String c r =>
      if Ascii.eqb c (Ascii.ascii_of_nat 46) then EmptyString :: segments r
      else match segments r with
           | h :: t => String c h :: t
           | [] => [String c EmptyString]
           end
  end.

(** Reading a property path; off an object there is nothing to read. *)
Fixpoint get_in (path : list string) (v : Value) : option Value :=
  match path with
  | [] => Some v
  | k :: r =>
      match v with
      | VObj m => m !! k ≫= get_in r
      | _ => None
      end
  end.

Definition get (path : string) (b : Doc) : option Value :=
  get_in (segments path) (VObj b).

(** Writing a property path, creating the objects on the way. *)
Fixpoint set_in (path : list string) (new : Value) (m : Doc) : Doc :=
  match path with
  | [] => m
  | [k] => <[k := new]> m
  | k :: r =>
      let inner := match m !! k with Some (VObj o) => o | _ => ∅ end in
      <[k := VObj (set_in r new inner)]> m
  end.

Definition set (path : string) (new : Value) (b : Doc) : Doc :=
  set_in (segments path) new b.

(** The library's [toString], applied to a value before a validator or a
    sanitizer sees it: a missing or [null] value is the empty string, a
    non-empty array stands for its first element. *)
Definition toString_flat (v : option Value) : jsstring :=
  match v with
  | None | Some VNull => []
  | Some x => Js.String_ x
  end.

Definition toString (v : option Value) : jsstring :=
  match v with
  | Some (VArr (x :: _)) => toString_flat (Some x)
  | _ => toString_flat v
  end.

Definition validator_ok (v : Validator) (s : jsstring) : bool :=
  match v with
  | IsEmpty => StrCheck.isEmpty s
  | IsLength min max => StrCheck.isLength min max s
  | IsNumeric => StrCheck.isNumeric s
  | Matches p => StrCheck.matches p s
  end.

Definition sanitize (s : Sanitizer) (x : jsstring) : jsstring :=
  match s with
  | Trim => StrCheck.trim x
  end.

(** An array value is validated and sanitized element by element. *)
Definition elements (v : option Value) : list (option Value) :=
  match v with
  | Some (VArr l) => Some <$> l
  | _ => [v]
  end.

Definition fails (negated : bool) (v : Validator) (x : option Value) : bool :=
  let result := validator_ok v (toString x) in
  if negated then result else negb result.

Definition run_validation (path : string) (negated : bool) (v : Validator)
    (message : option jsstring) (val : option Value) : list VError :=
  (fun x => {| value := x;
               msg := default (u8 "Invalid value") message;
               param := u8 path;
               location := u8 "body" |})
    <$> filter (fun x => fails negated v x = true) (elements val).

Definition run_sanitization (s : Sanitizer) (val : option Value) : Value :=
  match val with
  | Some (VArr l) => VArr ((fun x => VStr (sanitize s (toString (Some x)))) <$> l)
  | _ => VStr (sanitize s (toString val))
  end.

(** The state of a running chain: the current value of the field, the
    request body and the errors recorded so far. *)
Definition run_item (path : string) (st : option Value * Doc * list VError)
    (item : ContextItem) : option Value * Doc * list VError :=
  let '(val, b, errs) := st in
  match item with
  | Validation negated v message =>
      (val, b, errs ++ run_validation path negated v message val)
  | Sanitization s =>
      let new := run_sanitization s val in
      (Some new, if decide (get path b = Some new) then b else set path new b, errs)
  end.

Definition run_chain (c : Chain) (b : Doc) : Doc * list VError :=
  let '(_, b', errs) :=
    fold_left (run_item (field c)) (stack c) (get (field c) b, b, []) in
  (b', errs).

(** A chain as a middleware: it sanitizes the body in place, records its
    errors on the request and hands over to the next middleware. *)
Definition middleware (c : Chain) (st : Request * list VError)
  : Request * list VError :=
  let '(b', errs) := run_chain c (body st.1) in
  (with_body b' st.1, st.2 ++ errs).

End Check.

Notation "c |> f" := (f c) (at level 45, left associativity, only parsing).

(** ** The rule list *)

Definition validaBeneficio : list Check.Chain :=
  let check := Check.check in
  [ check "nome"
      |> Check.not_ |> Check.isEmpty |> Check.trim
      |> Check.withMessage "É obrigatório informar o nome do benefício"
      |> Check.isLength (Some 5%nat) None
      |> Check.withMessage "O nome é muito curto. Mínimo de 5"
      |> Check.isLength None (Some 200%nat)
      |> Check.withMessage "O nome é muito longo. Máximo de 200";
    check "endereco.logradouro" |> Check.notEmpty
      |> Check.withMessage "O Logradouro é obrigatório";
    check "endereco.bairro" |> Check.notEmpty
      |> Check.withMessage "O bairro é obrigatório";
    check "endereco.cidade" |> Check.notEmpty
      |> Check.withMessage "A localidade é obrigatório";
    check "pontos" |> Check.isNumeric
      |> Check.withMessage "Os pontos devem ser um número";
    check "data" |> Check.matches date_pattern
      |> Check.withMessage "O formato de data é inválido. Informe yyyy-mm-dd";
    check "quantidade" |> Check.isNumeric
      |> Check.withMessage "A quantidade deve ser um número" ].

(** The middlewares of a route run in the order they are listed, before
    its handler; [validationResult] reads what they recorded. *)
Definition run_middlewares (cs : list Check.Chain) (req : Request)
  : Request * list Check.VError :=
  fold_left (fun st c => Check.middleware c st) cs (req, []).

(** ** Integers read from strings

    [parseInt] yields a number or [NaN]; [None] stands for [NaN], and an
    integer for the number it denotes (both zeros are [0]). *)

Module JsNumber.

Definition digit_value (radix c : N) : option N :=
  let v :=
    (if Js.is_digit c then Some (c - 48)
     else if (97 <=? c) && (c <=? 122) then Some (c - 87)
     else if (65 <=? c) && (c <=? 90) then Some (c - 55)
     else None)%N in
  v ≫= fun d => if (d <? radix)%N then Some d else None.

(** The value of the longest prefix of digits; [acc] is [None] until a
    digit has been read. *)
Fixpoint read_digits (radix : N) (acc : option N) (s : jsstring) : option N :=
  match s with
  | c :: r =>
      match digit_value radix c with
      | Some d => read_digits radix (Some (radix * default 0 acc + d)%N) r
      | None => acc
      end
  | [] => acc
  end.

(** [parseInt(x)] without a radix: leading white space, a sign, a [0x]
    prefix, then the digits; what follows the digits is ignored. *)
Definition parseInt (x : option jsstring) : option Z :=
  let s := Js.ltrim (Js.interpolate x) in
  let '(negative, s1) :=
    match s with
    | c :: r =>
        if (c =? 45)%N then (true, r)
        else if (c =? 43)%N then (false, r)
        else (false, s)
    | [] => (false, s)
    end in
  let '(radix, s2) :=
    match s1 with
    | z :: x :: r =>
        if ((z =? 48) && ((x =? 120) || (x =? 88)))%N then (16%N, r) else (10%N, s1)
    | _ => (10%N, s1)
    end in
  match read_digits radix None s2 with
  | Some n => Some (if negative then - Z.of_N n else Z.of_N n)
  | None => None
  end.

(** [x || d] on numbers: [NaN] and zero are falsy. *)
Definition or_else (x : option Z) (d : Z) : Z :=
  match x with
  | Some z => if z =? 0 then d else z
  | None => d
  end.

End JsNumber.

(** ** Case-insensitive search of a literal

    A [$regex] pattern with no metacharacter denotes itself; with the
    option [i] it is found in a text when some window of the text equals
    it up to letter case.  Letter case is folded on Basic Latin and the
    Latin-1 Supplement; an accented letter and its base letter stay
    different. *)

Module Literal.

Definition is_meta (c : N) : bool :=
  bool_decide (c ∈ [92; 94; 36; 46; 124; 63; 42; 43; 40; 41; 91; 93; 123; 125]%N).

Definition is_literal (p : jsstring) : bool := forallb (fun c => negb (is_meta c)) p.

Definition fold_case (c : N) : N :=
  (if (65 <=? c) && (c <=? 90) then c + 32
   else if (192 <=? c) && (c <=? 222) && negb (c =? 215) then c + 32
   else c)%N.

Definition same_letter (a b : N) : bool := (fold_case a =? fold_case b)%N.

Fixpoint prefix_ci (p s : jsstring) : bool :=
  match p, s with
  | [], _ => true
  | a :: p', b :: s' => same_letter a b && prefix_ci p' s'
  | _ :: _, [] => false
  end.

Fixpoint search_ci (p s : jsstring) : bool :=
  prefix_ci p s
  || match s with
     | [] => false
     | _ :: s' => search_ci p s'
     end.

End Literal.

(** ** The storage layer

    One collection of documents, in insertion order.  The server is taken
    to be reachable: a driver call fails only for the reasons written out
    below (an identifier already stored or of array type, a change of
    [_id], a pattern the engine rejects, a window the server refuses). *)

Definition Exn : Type := jsstring.

(** What the route group is handed from outside. *)
Class Driver := {
  (** [new ObjectId(x)], the constructor the connector exports: the
      identifier built from [x], or the exception it throws ([x] is [None]
      for [undefined]). *)
  ObjectId : option Value -> Exn + N;
  (** The regular-expression engine of the server, for a pattern and its
      options: the exception of a pattern it rejects, or the test it
      compiles to. *)
  regex_engine : jsstring -> jsstring -> Exn + (jsstring -> bool);
  (** The order and window the server applies to a sorted, paged cursor:
      sort specification, limit and skip. *)
  arrange : list (string * Z) -> Z -> Z -> list Doc -> Exn + list Doc
}.

Inductive Filter :=
| All
| IdEq (o : N)
| OrNomeRegex (pattern options : jsstring).

Record Paging := {
  limit : Z;
  skip : Z;
  sort : list (string * Z)
}.

Inductive Call :=
| Find (f : Filter) (p : option Paging)
| InsertOne (d : Doc)
| UpdateOne (f : Filter) (set : Doc)
| DeleteOne (f : Filter).

Record World := {
  coll : list Doc;
  next_oid : N;
  calls : list Call
}.

Definition with_coll (c : list Doc) (w : World) : World :=
  {| coll := c; next_oid := next_oid w; calls := calls w |}.

Definition M (A : Type) : Type := World -> (Exn + A) * World.

Definition ret {A} (a : A) : M A := fun w => (inr a, w).

Definition throw {A} (e : Exn) : M A := fun w => (inl e, w).

Definition bind {A B} (m : M A) (k : A -> M B) : M B :=
  fun w =>
    match m w with
    | (inr a, w') => k a w'
    | (inl e, w') => (inl e, w')
    end.

(** [try { m } catch (err) { h err }] *)
Definition try_catch {A} (m : M A) (h : Exn -> M A) : M A :=
  fun w =>
    match m w with
    | (inl e, w') => h e w'
    | r => r
    end.

Definition lift {A} (r : Exn + A) : M A := fun w => (r, w).

Definition issue (c : Call) : M unit :=
  fun w => (inr (), {| coll := coll w; next_oid := next_oid w; calls := calls w ++ [c] |}).

Declare Scope route_scope.
Delimit Scope route_scope with route.
Notation "x <- m ;; k" := (bind m (fun x => k))
  (at level 100, m at next level, right associativity) : route_scope.
Notation "m ;; k" := (bind m (fun _ => k))
  (at level 100, right associativity) : route_scope.
Local Open Scope route_scope.

Section Storage.
Context {driver : Driver}.

(** *** Query filters *)

Definition nome_test (t : jsstring -> bool) (d : Doc) : bool :=
  match d !! "nome" with
  | Some (VStr s) => t s
  | Some (VArr l) => existsb (fun x => match x with VStr s => t s | _ => false end) l
  | _ => false
  end.

Definition has_id (o : N) (d : Doc) : bool := bool_decide (d !! "_id" = Some (VOid o)).

Definition compile (pattern options : jsstring) : Exn + (jsstring -> bool) :=
  if bool_decide (options = u8 "i") && Literal.is_literal pattern
  then inr (Literal.search_ci pattern)
  else regex_engine pattern options.

Definition matcher (f : Filter) : Exn + (Doc -> bool) :=
  match f with
  | All => inr (fun _ => true)
  | IdEq o => inr (has_id o)
  | OrNomeRegex p opts =>
      match compile p opts with
      | inr t => inr (nome_test t)
      | inl e => inl e
      end
  end.

(** *** The driver calls *)

Definition find (f : Filter) (p : option Paging) : M (list Doc) :=
  issue (Find f p) ;;
  fun w =>
    match matcher f with
    | inl e => (inl e, w)
    | inr t =>
        let found := List.filter t (coll w) in
        match p with
        | None => (inr found, w)
        | Some pg => (arrange (sort pg) (limit pg) (skip pg) found, w)
        end
    end.

Definition ids (c : list Doc) : list (option Value) := (.!! "_id") <$> c.

Definition is_array (v : Value) : bool :=
  match v with VArr _ => true | _ => false end.

(** [insertOne(doc)]: a document without [_id] is given the next
    identifier; a document with one keeps it.  The identifier must not be
    an array nor that of a stored document. *)
Definition insertOne (d : Doc) : M Value :=
  issue (InsertOne d) ;;
  fun w =>
    let '(id, next) :=
      match d !! "_id" with
      | Some v => (v, next_oid w)
      | None => (VOid (next_oid w), (next_oid w + 1)%N)
      end in
    if is_array id then
      (inl (u8 "The '_id' value cannot be of type array"), w)
    else if bool_decide (Some id ∈ ids (coll w)) then
      (inl (u8 "E11000 duplicate key error collection: beneficios index: _id_"), w)
    else
      (inr (VObj {[ "acknowledged" := VBool true; "insertedId" := id ]}),
       {| coll := coll w ++ [<["_id" := id]> d]; next_oid := next; calls := calls w |}).

Fixpoint update_first (t : Doc -> bool) (g : Doc -> Doc) (c : list Doc) : list Doc :=
  match c with
  | [] => []
  | d :: r => if t d then g d :: r else d :: update_first t g r
  end.

Fixpoint remove_first (t : Doc -> bool) (c : list Doc) : list Doc :=
  match c with
  | [] => []
  | d :: r => if t d then r else d :: remove_first t r
  end.

Definition update_result (matched modified : Z) : Value :=
  VObj {[ "acknowledged" := VBool true; "matchedCount" := VNum matched;
          "modifiedCount" := VNum modified; "upsertedCount" := VNum 0;
          "upsertedId" := VNull ]}.

(** [updateOne(filter, { $set: fields })]: the first document the filter
    selects takes the given fields, keeping its others; its [_id] cannot be
    given another value. *)
Definition updateOne (f : Filter) (fields : Doc) : M Value :=
  issue (UpdateOne f fields) ;;
  fun w =>
    match matcher f with
    | inl e => (inl e, w)
    | inr t =>
        match List.find t (coll w) with
        | None => (inr (update_result 0 0), w)
        | Some d =>
            if bool_decide (is_Some (fields !! "_id") ∧ fields !! "_id" ≠ d !! "_id") then
              (inl (u8 "Performing an update on the path '_id' would modify the immutable field '_id'"), w)
            else
              (inr (update_result 1 (if bool_decide (fields ∪ d = d) then 0 else 1)),
               with_coll (update_first t (fun d => fields ∪ d) (coll w)) w)
        end
    end.

Record DeleteResult := {
  acknowledged : bool;
  deletedCount : Z
}.

Definition json_of_delete (r : DeleteResult) : Value :=
  VObj {[ "acknowledged" := VBool (acknowledged r); "deletedCount" := VNum (deletedCount r) ]}.

(** [deleteOne(filter)]: the first document the filter selects is removed. *)
Definition deleteOne (f : Filter) : M DeleteResult :=
  issue (DeleteOne f) ;;
  fun w =>
    match matcher f with
    | inl e => (inl e, w)
    | inr t =>
        match List.find t (coll w) with
        | None => (inr {| acknowledged := true; deletedCount := 0 |}, w)
        | Some _ =>
            (inr {| acknowledged := true; deletedCount := 1 |},
             with_coll (remove_first t (coll w)) w)
        end
    end.

End Storage.

(** ** The routes *)

Record Response := {
  status : Z;
  payload : Value
}.

Definition respond (s : Z) (v : Value) : Response := {| status := s; payload := v |}.

Definition str (s : string) : Value := VStr (u8 s).

(** One entry of [errors.array()]; a missing value leaves no property. *)
Definition json_of_error (e : Check.VError) : Value :=
  let o : Doc :=
    {[ "msg" := VStr (Check.msg e); "param" := VStr (Check.param e);
       "location" := VStr (Check.location e) ]} in
  VObj match Check.value e with
       | Some v => <["value" := v]> o
       | None => o
       end.

(** The envelope [{ errors: [{ value, msg, param }] }]. *)
Definition error_envelope (value : jsstring) (msg param : string) : Value :=
  VObj {[ "errors" :=
            VArr [VObj {[ "value" := VStr value; "msg" := str msg; "param" := str param ]}] ]}.

Definition validation_envelope (errors : list Check.VError) : Value :=
  VObj {[ "errors" := VArr (json_of_error <$> errors) ]}.

Definition docs_json (docs : list Doc) : Value := VArr (VObj <$> docs).

Section Routes.
Context {driver : Driver}.

Definition nomeCollection : string := "beneficios".

(** [GET /]: the list, with [limit], [skip] and [order] read from the
    query string. *)
Definition get_list (req : Request) : M Response :=
  let limit := query req !! "limit" in
  let skip := query req !! "skip" in
  let order := query req !! "order" in
  try_catch
    (docs <- find All (Some {| limit := JsNumber.or_else (JsNumber.parseInt limit) 10;
                               skip := JsNumber.or_else (JsNumber.parseInt skip) 0;
                               sort := [("order", 1)] |}) ;;
     ret (respond 200 (docs_json docs)))
    (fun err =>
       ret (respond 500
              (VObj {[ "message" := str "Erro ao obter a listagem dos benefícios";
                       "error" := VStr err ]}))).

(** [GET /id/:id] *)
Definition get_by_id (req : Request) : M Response :=
  try_catch
    (id <- lift (ObjectId (VStr <$> params req !! "id")) ;;
     docs <- find (IdEq id) None ;;
     ret (respond 200 (docs_json docs)))
    (fun err =>
       ret (respond 500 (error_envelope err "Erro ao obter o benefício pelo ID" "/id/:id"))).

(** [GET /nome/:filtro]; [toString] of a missing parameter is a
    [TypeError]. *)
Definition get_by_nome (req : Request) : M Response :=
  try_catch
    (filtro <- match params req !! "filtro" with
               | Some s => ret s
               | None => throw (u8 "Cannot read properties of undefined (reading 'toString')")
               end ;;
     docs <- find (OrNomeRegex filtro (u8 "i")) None ;;
     ret (respond 200 (docs_json docs)))
    (fun err =>
       ret (respond 500
              (error_envelope err "Erro ao obter o benefícios pelo nome" "/nome/:filtro"))).

(** [DELETE /:id]: no [try] around the body. *)
Definition delete_by_id (req : Request) : M Response :=
  id <- lift (ObjectId (VStr <$> params req !! "id")) ;;
  result <- deleteOne (IdEq id) ;;
  if deletedCount result =? 0 then
    ret (respond 404
           (error_envelope
              (u8 "Não há nenhum benefício com o id " ++ Js.interpolate (params req !! "id"))
              "Erro ao excluir o benefício" "/:id"))
  else
    ret (respond 200 (json_of_delete result)).

(** [POST /], after the rule list has run. *)
Definition post_handler (req : Request) (validation : list Check.VError) : M Response :=
  try_catch
    (let errors := validation in
     if negb (bool_decide (errors = [])) then
       ret (respond 400 (validation_envelope errors))
     else
       beneficio <- insertOne (body req) ;;
       ret (respond 201 beneficio))
    (fun err =>
       ret (respond 500 (VObj {[ "message" := VStr (err ++ u8 " Erro no Server") ]}))).

(** [PUT /], after the rule list has run. *)
Definition put_handler (req : Request) (validation : list Check.VError) : M Response :=
  let idDocumento := body req !! "_id" in
  let req := with_body (delete "_id" (body req)) req in
  try_catch
    (let errors := validation in
     if negb (bool_decide (errors = [])) then
       ret (respond 400 (validation_envelope errors))
     else
       id <- lift (ObjectId idDocumento) ;;
       beneficio <- updateOne (IdEq id) (body req) ;;
       ret (respond 202 beneficio))
    (fun err => ret (respond 500 (VObj {[ "errors" := VStr err ]}))).

(** A route is its middlewares, then its handler. *)
Definition route (middlewares : list Check.Chain)
    (handler : Request -> list Check.VError -> M Response) (req : Request) : M Response :=
  let '(req', validation) := run_middlewares middlewares req in
  handler req' validation.

Definition post_route : Request -> M Response := route validaBeneficio post_handler.

Definition put_route : Request -> M Response := route validaBeneficio put_handler.

(** The routes of the group, mounted under [/api/beneficios]. *)
Inductive Endpoint :=
| GET_list
| GET_id
| GET_nome
| DELETE_id
| POST_root
| PUT_root.

Definition dispatch (e : Endpoint) : Request -> M Response :=
  match e with
  | GET_list => get_list
  | GET_id => get_by_id
  | GET_nome => get_by_nome
  | DELETE_id => delete_by_id
  | POST_root => post_route
  | PUT_root => put_route
  end.

(** The worlds the service can be in: it starts on some stored collection
    with distinct identifiers, and every request moves it on. *)
Inductive reachable : World -> Prop :=
| reachable_start w : NoDup ((.!! "_id") <$> coll w) -> reachable w
| reachable_step w e req : reachable w -> reachable (dispatch e req w).2.

End Routes.

(** ** Notions the properties are stated with *)

(** The one driver call of the list route. *)
Definition list_paging (req : Request) : Paging :=
  {| limit := JsNumber.or_else (JsNumber.parseInt (query req !! "limit")) 10;
     skip := JsNumber.or_else (JsNumber.parseInt (query req !! "skip")) 0;
     sort := [("order", 1)] |}.

(** *** The rule list, rule by rule

    Each validator of [validaBeneficio] is a rule: it names a field, the
    value it examines (the field as sent, or as trimmed: the name is
    checked for emptiness before the trimming and for length after it),
    what it asks of the text of that value, and its message.  An array is
    examined element by element. *)

Record Rule := {
  rule_field : string;
  rule_input : Doc -> option Value;
  rule_holds : jsstring -> bool;
  rule_message : string
}.

Definition sent (f : string) (b : Doc) : option Value := Check.get f b.

Definition trimmed (f : string) (b : Doc) : option Value :=
  Some (Check.run_sanitization Check.Trim (Check.get f b)).

Definition non_empty (s : jsstring) : bool := negb (StrCheck.isEmpty s).

Definition rule_nome_required : Rule :=
  {| rule_field := "nome"; rule_input := sent "nome"; rule_holds := non_empty;
     rule_message := "É obrigatório informar o nome do benefício" |}.

Definition rule_nome_min : Rule :=
  {| rule_field := "nome"; rule_input := trimmed "nome";
     rule_holds := fun s => (5 <=? length s)%nat;
     rule_message := "O nome é muito curto. Mínimo de 5" |}.

Definition rule_nome_max : Rule :=
  {| rule_field := "nome"; rule_input := trimmed "nome";
     rule_holds := fun s => (length s <=? 200)%nat;
     rule_message := "O nome é muito longo. Máximo de 200" |}.

Definition rule_logradouro : Rule :=
  {| rule_field := "endereco.logradouro"; rule_input := sent "endereco.logradouro";
     rule_holds := non_empty; rule_message := "O Logradouro é obrigatório" |}.

Definition rule_bairro : Rule :=
  {| rule_field := "endereco.bairro"; rule_input := sent "endereco.bairro";
     rule_holds := non_empty; rule_message := "O bairro é obrigatório" |}.

Definition rule_cidade : Rule :=
  {| rule_field := "endereco.cidade"; rule_input := sent "endereco.cidade";
     rule_holds := non_empty; rule_message := "A localidade é obrigatório" |}.

Definition rule_pontos : Rule :=
  {| rule_field := "pontos"; rule_input := sent "pontos";
     rule_holds := StrCheck.isNumeric;
     rule_message := "Os pontos devem ser um número" |}.

Definition rule_data : Rule :=
  {| rule_field := "data"; rule_input := sent "data";
     rule_holds := StrCheck.matches date_pattern;
     rule_message := "O formato de data é inválido. Informe yyyy-mm-dd" |}.

Definition rule_quantidade : Rule :=
  {| rule_field := "quantidade"; rule_input := sent "quantidade";
     rule_holds := StrCheck.isNumeric;
     rule_message := "A quantidade deve ser um número" |}.

Definition rules : list Rule :=
  [ rule_nome_required; rule_nome_min; rule_nome_max; rule_logradouro; rule_bairro;
    rule_cidade; rule_pontos; rule_data; rule_quantidade ].

(** The values a rule rejects in a body. *)
Definition violations (r : Rule) (b : Doc) : list (option Value) :=
  filter (fun x => rule_holds r (Check.toString x) = false)
         (Check.elements (rule_input r b)).

Definition violated (r : Rule) (b : Doc) : Prop := violations r b <> [].

(** The failure a rule reports for a rejected value. *)
Definition failure (r : Rule) (x : option Value) : Check.VError :=
  {| Check.value := x; Check.msg := u8 (rule_message r);
     Check.param := u8 (rule_field r); Check.location := u8 "body" |}.

Definition failures (r : Rule) (b : Doc) : list Check.VError :=
  failure r <$> violations r b.

(** What the rule list records for a request. *)
Definition validationResult (req : Request) : list Check.VError :=
  (run_middlewares validaBeneficio req).2.

(** The body once the [nome] chain has trimmed the name in place. *)
Definition nome_after (b : Doc) : Doc :=
  let new := Check.run_sanitization Check.Trim (Check.get "nome" b) in
  if decide (Check.get "nome" b = Some new) then b else Check.set "nome" new b.

(** The request the handler sees once the rule list has run. *)
Definition sanitized (req : Request) : Request :=
  (run_middlewares validaBeneficio req).1.

#[global] Arguments validationResult : simpl never.
#[global] Arguments sanitized : simpl never.

(** *** Stored identifiers

    The collection keeps an index on [_id]: no two stored documents have
    the same. *)
Definition unique_ids (c : list Doc) : Prop := NoDup (ids c).

(** *** Containing a text up to letter case *)



(** A computation preserves a property of the world. *)
Definition preserves {A} (I : World -> Prop) (m : M A) : Prop :=
  forall w, I w -> I (m w).2.

Definition indexed (w : World) : Prop := unique_ids (coll w).

(** *** What a route may ask of storage and answer

    The driver call written in each handler, and the status codes its
    [res.status] calls name. *)
Definition own_call (e : Endpoint) (c : Call) : Prop :=
  match e, c with
  | GET_list, Find All (Some _) => True
  | GET_id, Find (IdEq _) None => True
  | GET_nome, Find (OrNomeRegex _ _) None => True
  | DELETE_id, DeleteOne (IdEq _) => True
  | POST_root, InsertOne _ => True
  | PUT_root, UpdateOne (IdEq _) _ => True
  | _, _ => False
  end.

Definition statuses (e : Endpoint) : list Z :=
  match e with
  | GET_list | GET_id | GET_nome => [200; 500]
  | DELETE_id => [200; 404]
  | POST_root => [201; 400; 500]
  | PUT_root => [202; 400; 500]
  end.

Definition reads (e : Endpoint) : bool :=
  match e with
  | GET_list | GET_id | GET_nome => true
  | _ => false
  end.

(** *** Texts without white space at an end *)



(** The text of a date: four digits, a dash, two digits, a dash, two
    digits. *)
Definition date_shaped (s : jsstring) : Prop :=
  exists y m d,
    s = y ++ [45%N] ++ m ++ [45%N] ++ d
    /\ length y = 4%nat /\ length m = 2%nat /\ length d = 2%nat
    /\ Forall (fun c => Js.is_digit c = true) (y ++ m ++ d).

(** ** A driver and a world to run the routes on

    The identifier constructor takes the strings of twenty-four
    hexadecimal digits, the engine refuses the patterns that are not
    literal, and the server keeps the stored order, skipping and limiting
    as asked. *)

Module Sample.

Definition hex_value (s : jsstring) : option N :=
  if bool_decide (length s = 24%nat) then JsNumber.read_digits 16 None s
  else None.

Definition all_hex (s : jsstring) : bool :=
  forallb (fun c => bool_decide (is_Some (JsNumber.digit_value 16 c))) s.

Definition object_id (x : option Value) : Exn + N :=
  match x with
  | None => inr (2 ^ 95)%N
  | Some (VOid o) => inr o
  | Some (VStr s) =>
      match hex_value s with
      | Some o => if all_hex s then inr o else inl (u8 "input must be a 24 character hex string")
      | None => inl (u8 "input must be a 24 character hex string")
      end
  | Some _ => inl (u8 "input must be a 24 character hex string")
  end.

#[global] Instance driver : Driver := {|
  ObjectId := object_id;
  regex_engine := fun _ _ => inl (u8 "Regular expression is invalid");
  arrange := fun _ lim sk docs =>
    let rest := drop (Z.to_nat sk) docs in
    inr (if lim =? 0 then rest else take (Z.to_nat (Z.abs lim)) rest)
|}.

Definition oid_a : jsstring := u8 "64b7f0c2a1d3e4f5a6b7c8d9".
Definition oid_b : jsstring := u8 "64b7f0c2a1d3e4f5a6b7c8da".

Definition id_of (s : jsstring) : N := default 0%N (hex_value s).

Definition endereco : Value :=
  VObj {[ "logradouro" := str "Rua das Flores, 10"; "bairro" := str "Centro";
          "cidade" := str "Votorantim" ]}.

(** A payload every rule accepts. *)
Definition cesta : Doc :=
  {[ "nome" := str "Cesta Básica"; "endereco" := endereco; "pontos" := VNum 10;
     "data" := str "2024-05-01"; "quantidade" := VNum 3 ]}.

Definition stored_cesta : Doc := <["_id" := VOid (id_of oid_a)]> cesta.

Definition world : World :=
  {| coll := [stored_cesta]; next_oid := 1; calls := [] |}.

Definition request (q p : gmap string jsstring) (b : Doc) : Request :=
  {| query := q; params := p; body := b |}.

End Sample.

(** * Properties *)

(** Running a handler: the monad's operations are unfolded; what stays is
    the case analysis on the driver's answers. *)
Ltac run :=
  repeat progress (try unfold try_catch; try unfold bind; try unfold lift;
                   try unfold throw; try unfold issue; try unfold ret).

(** ** The list route *)

Section ListRoute.
Context {driver : Driver}.

Lemma get_list_calls req w :
  calls (get_list req w).2 = calls w ++ [Find All (Some (list_paging req))].
Proof.
  unfold get_list, find; run; simpl.
  fold (list_paging req).
  by destruct (arrange _ _ _ _).
Qed.

Lemma get_list_coll req w : coll (get_list req w).2 = coll w.
Proof.
  unfold get_list, find; run; simpl.
  by destruct (arrange _ _ _ _).
Qed.

Lemma get_list_responds req w : exists r, (get_list req w).1 = inr r.
Proof.
  unfold get_list, find; run; simpl.
  destruct (arrange _ _ _ _); eauto.
Qed.

Lemma or_else_nonzero x d : d <> 0 -> JsNumber.or_else x d <> 0.
Proof.
  intros Hd. unfold JsNumber.or_else.
  destruct x as [z|]; [|done].
  destruct (Z.eqb_spec z 0); done.
Qed.

End ListRoute.


(** C8.  Two list requests that differ at most in [order] issue the same
    storage query, sorted on the literal field "order" ascending, and get
    the same response and world from the same world. *)
Theorem list_ignores_order `{driver : Driver} (req1 req2 : Request) (w : World) :
  delete "order" (query req1) = delete "order" (query req2) ->
  params req1 = params req2 ->
  body req1 = body req2 ->
  get_list req1 w = get_list req2 w
  /\ exists pg,
       calls (get_list req1 w).2 = calls w ++ [Find All (Some pg)]
       /\ calls (get_list req2 w).2 = calls w ++ [Find All (Some pg)]
       /\ sort pg = [("order", 1)].
Proof.
  intros Hq _ _.
  assert (Hk : forall k, k <> "order" -> query req1 !! k = query req2 !! k).
  { intros k Hk.
    rewrite <- (lookup_delete_ne (query req1) "order" k), Hq by done.
    by rewrite lookup_delete_ne. }
  assert (Hpg : list_paging req1 = list_paging req2).
  { unfold list_paging. by rewrite !(Hk "limit"), !(Hk "skip"). }
  split.
  - unfold get_list. by rewrite (Hk "limit"), (Hk "skip").
  - exists (list_paging req1). rewrite !get_list_calls, Hpg. done.
Qed.

(** C10.  A limit that parses to 0 is replaced by 10, so the limit the
    list route asks for is never 0; a skip that parses to 0 stays 0, which
    is also its default. *)
Theorem list_zero_limit_becomes_default `{driver : Driver} (req : Request) (w : World) :
  exists pg,
    calls (get_list req w).2 = calls w ++ [Find All (Some pg)]
    /\ (JsNumber.parseInt (query req !! "limit") = Some 0 -> limit pg = 10)
    /\ limit pg <> 0
    /\ (JsNumber.parseInt (query req !! "skip") = Some 0 -> skip pg = 0)
    /\ (JsNumber.parseInt (query req !! "skip") = None -> skip pg = 0).
Proof.
  exists (list_paging req). split; [apply get_list_calls|].
  unfold list_paging; simpl. repeat split.
  - by intros ->.
  - by apply or_else_nonzero.
  - by intros ->.
  - by intros ->.
Qed.



Lemma list_ignores_order_witness :
  get_list (Sample.request {[ "limit" := u8 "2"; "order" := u8 "nome" ]} ∅ ∅) Sample.world
  = get_list (Sample.request {[ "limit" := u8 "2"; "order" := u8 "pontos" ]} ∅ ∅) Sample.world.
Proof.
  apply (list_ignores_order
           (Sample.request {[ "limit" := u8 "2"; "order" := u8 "nome" ]} ∅ ∅)
           (Sample.request {[ "limit" := u8 "2"; "order" := u8 "pontos" ]} ∅ ∅)
           Sample.world); reflexivity.
Defined.

Lemma list_zero_limit_becomes_default_witness :
  exists pg,
    calls (get_list (Sample.request {[ "limit" := u8 "0"; "skip" := u8 "0" ]} ∅ ∅)
             Sample.world).2 = [Find All (Some pg)]
    /\ limit pg = 10 /\ skip pg = 0.
Proof.
  destruct (list_zero_limit_becomes_default
              (Sample.request {[ "limit" := u8 "0"; "skip" := u8 "0" ]} ∅ ∅)
              Sample.world) as (pg & Hc & Hl & _ & Hs & _).
  exists pg. split; [exact Hc|]. split.
  - apply Hl. reflexivity.
  - apply Hs. reflexivity.
Defined.

(** ** The rule list and the two routes it guards *)

Section Validation.

Lemma run_chain_single f neg v m b :
  Check.run_chain {| Check.field := f; Check.stack := [Check.Validation neg v (Some m)];
                     Check.negateNext := false |} b
  = (b, Check.run_validation f neg v (Some m) (Check.get f b)).
Proof. reflexivity. Qed.

Lemma validaBeneficio_eq :
  validaBeneficio =
  [ {| Check.field := "nome";
       Check.stack :=
         [ Check.Validation true Check.IsEmpty (Some (u8 "É obrigatório informar o nome do benefício"));
           Check.Sanitization Check.Trim;
           Check.Validation false (Check.IsLength (Some 5%nat) None) (Some (u8 "O nome é muito curto. Mínimo de 5"));
           Check.Validation false (Check.IsLength None (Some 200%nat)) (Some (u8 "O nome é muito longo. Máximo de 200")) ];
       Check.negateNext := false |};
    {| Check.field := "endereco.logradouro";
       Check.stack := [Check.Validation true Check.IsEmpty (Some (u8 "O Logradouro é obrigatório"))];
       Check.negateNext := false |};
    {| Check.field := "endereco.bairro";
       Check.stack := [Check.Validation true Check.IsEmpty (Some (u8 "O bairro é obrigatório"))];
       Check.negateNext := false |};
    {| Check.field := "endereco.cidade";
       Check.stack := [Check.Validation true Check.IsEmpty (Some (u8 "A localidade é obrigatório"))];
       Check.negateNext := false |};
    {| Check.field := "pontos";
       Check.stack := [Check.Validation false Check.IsNumeric (Some (u8 "Os pontos devem ser um número"))];
       Check.negateNext := false |};
    {| Check.field := "data";
       Check.stack := [Check.Validation false (Check.Matches date_pattern) (Some (u8 "O formato de data é inválido. Informe yyyy-mm-dd"))];
       Check.negateNext := false |};
    {| Check.field := "quantidade";
       Check.stack := [Check.Validation false Check.IsNumeric (Some (u8 "A quantidade deve ser um número"))];
       Check.negateNext := false |} ].
Proof. reflexivity. Qed.

Lemma run_chain_nome b m1 m2 m3 :
  Check.run_chain
    {| Check.field := "nome";
       Check.stack :=
         [ Check.Validation true Check.IsEmpty (Some m1);
           Check.Sanitization Check.Trim;
           Check.Validation false (Check.IsLength (Some 5%nat) None) (Some m2);
           Check.Validation false (Check.IsLength None (Some 200%nat)) (Some m3) ];
       Check.negateNext := false |} b
  = (nome_after b,
     Check.run_validation "nome" true Check.IsEmpty (Some m1) (Check.get "nome" b)
     ++ Check.run_validation "nome" false (Check.IsLength (Some 5%nat) None) (Some m2) (trimmed "nome" b)
     ++ Check.run_validation "nome" false (Check.IsLength None (Some 200%nat)) (Some m3) (trimmed "nome" b)).
Proof.
  unfold Check.run_chain. simpl fold_left. unfold nome_after, trimmed.
  by rewrite <- app_assoc.
Qed.

Lemma get_nome_after (f k : string) (r : list string) (b : Doc) :
  Check.segments f = k :: r -> k <> "nome" ->
  Check.get f (nome_after b) = Check.get f b.
Proof.
  intros Hf Hk. unfold nome_after. case_decide; [done|].
  unfold Check.get, Check.set. rewrite Hf. simpl.
  by rewrite lookup_insert_ne.
Qed.

Lemma run_validation_failures (r : Rule) (neg : bool) v b :
  (forall s, (if neg then Check.validator_ok v s else negb (Check.validator_ok v s))
             = negb (rule_holds r s)) ->
  Check.run_validation (rule_field r) neg v (Some (u8 (rule_message r))) (rule_input r b)
  = failures r b.
Proof.
  intros H. unfold Check.run_validation, failures, violations, failure. simpl.
  f_equal. apply list_filter_iff. intros x. unfold Check.fails. rewrite H.
  destruct (rule_holds r _); simpl; split; congruence.
Qed.

Lemma middleware_eq c req errs :
  Check.middleware c (req, errs)
  = (with_body (Check.run_chain c (body req)).1 req, errs ++ (Check.run_chain c (body req)).2).
Proof. unfold Check.middleware. simpl. by destruct (Check.run_chain c (body req)). Qed.

Lemma with_body_twice b b' req : with_body b (with_body b' req) = with_body b req.
Proof. reflexivity. Qed.

Lemma body_with_body b req : body (with_body b req) = b.
Proof. reflexivity. Qed.

Lemma run_validaBeneficio req :
  run_middlewares validaBeneficio req
  = (with_body (nome_after (body req)) req, concat (fmap (fun r => failures r (body req)) rules)).
Proof.
  unfold run_middlewares. rewrite validaBeneficio_eq. cbn [fold_left].
  rewrite (middleware_eq _ req), run_chain_nome. cbn [fst snd].
  repeat (rewrite middleware_eq, body_with_body, run_chain_single, with_body_twice; cbn [fst snd]).
  repeat (erewrite get_nome_after; [|reflexivity|done]).
  f_equal.
  pose proof (fun r n v H => run_validation_failures r n v (body req) H) as F.
  unfold rules. cbn [fmap list_fmap concat].
  rewrite <- (F rule_nome_required true Check.IsEmpty), <- (F rule_nome_min false (Check.IsLength (Some 5%nat) None)),
    <- (F rule_nome_max false (Check.IsLength None (Some 200%nat))),
    <- (F rule_logradouro true Check.IsEmpty), <- (F rule_bairro true Check.IsEmpty),
    <- (F rule_cidade true Check.IsEmpty), <- (F rule_pontos false Check.IsNumeric),
    <- (F rule_data false (Check.Matches date_pattern)),
    <- (F rule_quantidade false Check.IsNumeric).
  2-10: intros s; simpl; unfold non_empty, StrCheck.isLength; simpl;
        rewrite ?negb_involutive, ?andb_true_r; done.
  cbn [rule_field rule_message rule_input rule_nome_required rule_nome_min rule_nome_max
       rule_logradouro rule_bairro rule_cidade rule_pontos rule_data rule_quantidade].
  unfold sent. rewrite app_nil_r, <- !app_assoc. reflexivity.
Qed.

Lemma validationResult_rules req :
  validationResult req = concat ((fun r => failures r (body req)) <$> rules).
Proof. unfold validationResult. by rewrite run_validaBeneficio. Qed.

Lemma sanitized_eq req : sanitized req = with_body (nome_after (body req)) req.
Proof. unfold sanitized. by rewrite run_validaBeneficio. Qed.


Lemma in_validationResult e req :
  e ∈ validationResult req <-> exists r, r ∈ rules /\ e ∈ failures r (body req).
Proof.
  rewrite validationResult_rules, list_elem_of_In, in_concat. split.
  - intros (l & Hl & He). apply list_elem_of_In, list_elem_of_fmap in Hl as (r & -> & Hr).
    apply list_elem_of_In in He. eauto.
  - intros (r & Hr & He). exists (failures r (body req)).
    rewrite <- !list_elem_of_In. split; [|done].
    apply list_elem_of_fmap. eauto.
Qed.



End Validation.

Section GuardedRoutes.
Context {driver : Driver}.

Lemma post_route_eq req w :
  post_route req w = post_handler (sanitized req) (validationResult req) w.
Proof.
  unfold post_route, route, sanitized, validationResult.
  by destruct (run_middlewares validaBeneficio req).
Qed.

Lemma put_route_eq req w :
  put_route req w = put_handler (sanitized req) (validationResult req) w.
Proof.
  unfold put_route, route, sanitized, validationResult.
  by destruct (run_middlewares validaBeneficio req).
Qed.

Lemma post_rejected req w :
  validationResult req <> [] ->
  post_route req w = (inr (respond 400 (validation_envelope (validationResult req))), w).
Proof.
  intros H. rewrite post_route_eq. unfold post_handler, try_catch.
  by rewrite bool_decide_eq_false_2.
Qed.

Lemma put_rejected req w :
  validationResult req <> [] ->
  put_route req w = (inr (respond 400 (validation_envelope (validationResult req))), w).
Proof.
  intros H. rewrite put_route_eq. unfold put_handler, try_catch.
  by rewrite bool_decide_eq_false_2.
Qed.


End GuardedRoutes.





(** ** Reading and deleting by identifier *)

Section ById.
Context {driver : Driver}.

Lemma filter_has_id_nil o (c : list Doc) :
  Some (VOid o) ∉ ids c -> List.filter (has_id o) c = [].
Proof.
  induction c as [|d c IH]; [done|]. unfold ids. rewrite fmap_cons, not_elem_of_cons.
  intros [Hd Hc]. simpl. unfold has_id at 1.
  rewrite bool_decide_eq_false_2 by congruence. by apply IH.
Qed.

Lemma filter_has_id_unique o (c : list Doc) :
  unique_ids c -> (length (List.filter (has_id o) c) <= 1)%nat.
Proof.
  unfold unique_ids. induction c as [|d c IH]; [simpl; lia|].
  unfold ids. rewrite fmap_cons, NoDup_cons. intros [Hd Hc]. simpl.
  unfold has_id at 1. case_bool_decide as E.
  - rewrite E in Hd. rewrite filter_has_id_nil by done. simpl. lia.
  - by apply IH.
Qed.

Lemma elem_of_filter_has_id o (c : list Doc) d :
  d ∈ List.filter (has_id o) c <-> d ∈ c /\ d !! "_id" = Some (VOid o).
Proof.
  rewrite !list_elem_of_In, filter_In. unfold has_id.
  by rewrite bool_decide_eq_true.
Qed.

Lemma find_has_id_None o (c : list Doc) :
  List.find (has_id o) c = None <-> forall d, d ∈ c -> d !! "_id" <> Some (VOid o).
Proof.
  split.
  - intros H d Hd E. apply list_elem_of_In in Hd.
    apply (find_none _ _ H) in Hd. unfold has_id in Hd.
    by rewrite bool_decide_eq_true_2 in Hd.
  - intros H. destruct (List.find (has_id o) c) as [d|] eqn:E; [|done].
    apply find_some in E as [Hd E]. unfold has_id in E.
    apply bool_decide_eq_true in E. apply list_elem_of_In in Hd. by destruct (H d Hd).
Qed.

Lemma get_by_id_found req w o :
  ObjectId (VStr <$> params req !! "id") = inr o ->
  get_by_id req w
  = (inr (respond 200 (docs_json (List.filter (has_id o) (coll w)))),
     {| coll := coll w; next_oid := next_oid w; calls := calls w ++ [Find (IdEq o) None] |}).
Proof.
  intros H. unfold get_by_id, find; run. by rewrite H.
Qed.

Lemma get_by_id_malformed req w e :
  ObjectId (VStr <$> params req !! "id") = inl e ->
  get_by_id req w
  = (inr (respond 500 (error_envelope e "Erro ao obter o benefício pelo ID" "/id/:id")), w).
Proof.
  intros H. unfold get_by_id, find; run. by rewrite H.
Qed.

End ById.

(** C2.  When the identifier of a get-by-id request is one the constructor
    accepts, the answer is 200 with the array of the stored documents that
    have this identifier: none or one of them under the index on [_id], and
    the empty array when no document has it.  When the constructor throws,
    the answer is 500 with one error object of fields [value] (the
    exception's message), [msg] and [param]. *)
Theorem get_by_id_responses `{driver : Driver} (req : Request) (w : World) :
  (forall o, ObjectId (VStr <$> params req !! "id") = inr o ->
     exists docs,
       (get_by_id req w).1 = inr (respond 200 (VArr (VObj <$> docs)))
       /\ (forall d, d ∈ docs <-> d ∈ coll w /\ d !! "_id" = Some (VOid o))
       /\ (unique_ids (coll w) -> (length docs <= 1)%nat)
       /\ ((forall d, d ∈ coll w -> d !! "_id" <> Some (VOid o)) -> docs = [])
       /\ coll (get_by_id req w).2 = coll w)
  /\ (forall e, ObjectId (VStr <$> params req !! "id") = inl e ->
        exists fields : Doc,
          get_by_id req w = (inr (respond 500 (VObj {[ "errors" := VArr [VObj fields] ]})), w)
          /\ fields !! "value" = Some (VStr e)
          /\ fields !! "msg" = Some (str "Erro ao obter o benefício pelo ID")
          /\ fields !! "param" = Some (str "/id/:id")
          /\ dom fields = {[ "value"; "msg"; "param" ]}).
Proof.
  split.
  - intros o Ho. exists (List.filter (has_id o) (coll w)).
    rewrite (get_by_id_found _ _ _ Ho). simpl.
    split; [done|]. split; [apply elem_of_filter_has_id|].
    split; [apply filter_has_id_unique|]. split; [|done].
    intros H. apply filter_has_id_nil. unfold ids. rewrite list_elem_of_fmap.
    intros (d & Hd & Hin). by apply (H d Hin).
  - intros e He. eexists. rewrite (get_by_id_malformed _ _ _ He).
    unfold error_envelope. split; [reflexivity|].
    split; [done|]. split; [done|]. split; [done|].
    rewrite !dom_insert_L, dom_singleton_L. set_solver.
Qed.

Lemma get_by_id_responses_witness :
  (exists docs,
     (get_by_id (Sample.request ∅ {[ "id" := Sample.oid_a ]} ∅) Sample.world).1
     = inr (respond 200 (VArr (VObj <$> docs)))
     /\ Sample.stored_cesta ∈ docs /\ (length docs <= 1)%nat)
  /\ (get_by_id (Sample.request ∅ {[ "id" := Sample.oid_b ]} ∅) Sample.world).1
     = inr (respond 200 (VArr []))
  /\ (exists fields : Doc,
        get_by_id (Sample.request ∅ {[ "id" := u8 "abc" ]} ∅) Sample.world
        = (inr (respond 500 (VObj {[ "errors" := VArr [VObj fields] ]})), Sample.world)).
Proof.
  destruct (get_by_id_responses (Sample.request ∅ {[ "id" := Sample.oid_a ]} ∅) Sample.world)
    as [Ha _].
  destruct (Ha (Sample.id_of Sample.oid_a) eq_refl) as (da & Hra & Hin & Hlen & _).
  destruct (get_by_id_responses (Sample.request ∅ {[ "id" := Sample.oid_b ]} ∅) Sample.world)
    as [Hb _].
  destruct (Hb (Sample.id_of Sample.oid_b) eq_refl) as (db & Hrb & _ & _ & Hnone & _).
  destruct (get_by_id_responses (Sample.request ∅ {[ "id" := u8 "abc" ]} ∅) Sample.world)
    as [_ Hc].
  destruct (Hc (u8 "input must be a 24 character hex string") eq_refl) as (f & Hrc & _).
  split; [|split].
  - exists da. split; [exact Hra|]. split.
    + apply Hin. split; [left|reflexivity].
    + apply Hlen. unfold unique_ids. apply NoDup_singleton.
  - rewrite Hrb, Hnone; [done|].
    intros d Hd. apply list_elem_of_singleton in Hd as ->. vm_compute. discriminate.
  - exists f. exact Hrc.
Defined.

Section Delete.
Context {driver : Driver}.

Lemma find_split (t : Doc -> bool) (c : list Doc) x :
  List.find t c = Some x ->
  exists pre post,
    c = pre ++ x :: post /\ t x = true /\ Forall (fun y => t y = false) pre
    /\ remove_first t c = pre ++ post
    /\ forall g, update_first t g c = pre ++ g x :: post.
Proof.
  induction c as [|d c IH]; [done|]. simpl. destruct (t d) eqn:E.
  - intros [= ->]. by exists [], c.
  - intros H. destruct (IH H) as (pre & post & -> & Hx & Hpre & Hrm & Hup).
    exists (d :: pre), post. rewrite Hrm. split; [done|]. split; [done|].
    split; [by constructor|]. split; [done|]. intros g. by rewrite Hup.
Qed.

Lemma delete_by_id_missing req w o :
  ObjectId (VStr <$> params req !! "id") = inr o ->
  List.find (has_id o) (coll w) = None ->
  delete_by_id req w
  = (inr (respond 404
            (error_envelope
               (u8 "Não há nenhum benefício com o id " ++ Js.interpolate (params req !! "id"))
               "Erro ao excluir o benefício" "/:id")),
     {| coll := coll w; next_oid := next_oid w; calls := calls w ++ [DeleteOne (IdEq o)] |}).
Proof.
  intros Ho Hf. unfold delete_by_id, deleteOne; run. rewrite Ho. simpl.
  by rewrite Hf.
Qed.

Lemma delete_by_id_present req w o x :
  ObjectId (VStr <$> params req !! "id") = inr o ->
  List.find (has_id o) (coll w) = Some x ->
  delete_by_id req w
  = (inr (respond 200 (VObj {[ "acknowledged" := VBool true; "deletedCount" := VNum 1 ]})),
     {| coll := remove_first (has_id o) (coll w); next_oid := next_oid w;
        calls := calls w ++ [DeleteOne (IdEq o)] |}).
Proof.
  intros Ho Hf. unfold delete_by_id, deleteOne; run. rewrite Ho. simpl.
  by rewrite Hf.
Qed.

Lemma delete_by_id_malformed req w e :
  ObjectId (VStr <$> params req !! "id") = inl e -> delete_by_id req w = (inl e, w).
Proof.
  intros He. unfold delete_by_id; run. by rewrite He.
Qed.

(** A body under [try] whose [catch] answers always ends in an answer. *)
Lemma try_catch_responds {A} (m : M A) (h : Exn -> M A) w :
  (forall e w', exists r, (h e w').1 = inr r) -> exists r, (try_catch m h w).1 = inr r.
Proof.
  intros H. unfold try_catch. destruct (m w) as [[e|a] w']; [apply H|by exists a].
Qed.

Lemma guarded_routes_respond req w :
  (exists r, (get_list req w).1 = inr r)
  /\ (exists r, (get_by_id req w).1 = inr r)
  /\ (exists r, (get_by_nome req w).1 = inr r)
  /\ (exists r, (post_route req w).1 = inr r)
  /\ (exists r, (put_route req w).1 = inr r).
Proof.
  rewrite post_route_eq, put_route_eq.
  repeat split; apply try_catch_responds; intros e w'; eexists; reflexivity.
Qed.

End Delete.

(** C5.  For a delete request whose identifier the constructor accepts:
    when no stored document has it, the answer is 404 with one error
    object whose [value] names the identifier, and the collection is
    unchanged; when one has it, the answer is 200 with the deletion result
    (one deleted) and the first such document is gone, the others staying
    in place.  When the constructor throws, the exception escapes the
    handler, which answers nothing and issues no driver call; the five
    other routes always answer. *)
Theorem delete_by_id_responses `{driver : Driver} (req : Request) (w : World) :
  (forall o, ObjectId (VStr <$> params req !! "id") = inr o ->
     ((forall d, d ∈ coll w -> d !! "_id" <> Some (VOid o)) ->
        exists fields : Doc,
          delete_by_id req w
          = (inr (respond 404 (VObj {[ "errors" := VArr [VObj fields] ]})),
             {| coll := coll w; next_oid := next_oid w;
                calls := calls w ++ [DeleteOne (IdEq o)] |})
          /\ fields !! "value"
             = Some (VStr (u8 "Não há nenhum benefício com o id "
                           ++ Js.interpolate (params req !! "id")))
          /\ fields !! "msg" = Some (str "Erro ao excluir o benefício")
          /\ fields !! "param" = Some (str "/:id"))
     /\ (forall d, d ∈ coll w -> d !! "_id" = Some (VOid o) ->
           exists pre x post,
             coll w = pre ++ x :: post
             /\ x !! "_id" = Some (VOid o)
             /\ Forall (fun y => y !! "_id" <> Some (VOid o)) pre
             /\ delete_by_id req w
                = (inr (respond 200
                          (VObj {[ "acknowledged" := VBool true; "deletedCount" := VNum 1 ]})),
                   {| coll := pre ++ post; next_oid := next_oid w;
                      calls := calls w ++ [DeleteOne (IdEq o)] |})))
  /\ (forall e, ObjectId (VStr <$> params req !! "id") = inl e ->
        delete_by_id req w = (inl e, w))
  /\ (forall req' w',
        (exists r, (get_list req' w').1 = inr r)
        /\ (exists r, (get_by_id req' w').1 = inr r)
        /\ (exists r, (get_by_nome req' w').1 = inr r)
        /\ (exists r, (post_route req' w').1 = inr r)
        /\ (exists r, (put_route req' w').1 = inr r)).
Proof.
  split; [|split].
  - intros o Ho. split.
    + intros Hnone. apply (proj2 (find_has_id_None _ _)) in Hnone.
      eexists. rewrite (delete_by_id_missing _ _ _ Ho Hnone). unfold error_envelope.
      split; [reflexivity|]. done.
    + intros d Hd Hid.
      destruct (List.find (has_id o) (coll w)) as [x|] eqn:Hf.
      2:{ destruct (proj1 (find_has_id_None _ _) Hf d Hd Hid). }
      destruct (find_split _ _ _ Hf) as (pre & post & Hc & Hx & Hpre & Hrm & _).
      exists pre, x, post. rewrite (delete_by_id_present _ _ _ _ Ho Hf), Hrm.
      split; [done|]. split; [by apply bool_decide_eq_true in Hx|]. split; [|done].
      eapply Forall_impl; [exact Hpre|]. intros y Hy. by apply bool_decide_eq_false in Hy.
  - apply delete_by_id_malformed.
  - apply guarded_routes_respond.
Qed.

Lemma delete_by_id_responses_witness :
  (exists r, (delete_by_id (Sample.request ∅ {[ "id" := Sample.oid_b ]} ∅) Sample.world).1
             = inr r /\ status r = 404)
  /\ (exists r w', delete_by_id (Sample.request ∅ {[ "id" := Sample.oid_a ]} ∅) Sample.world
                   = (inr r, w') /\ status r = 200 /\ coll w' = [])
  /\ (exists e, delete_by_id (Sample.request ∅ {[ "id" := u8 "abc" ]} ∅) Sample.world
                = (inl e, Sample.world)).
Proof.
  split; [|split].
  - destruct (delete_by_id_responses (Sample.request ∅ {[ "id" := Sample.oid_b ]} ∅)
                Sample.world) as [H _].
    destruct (H (Sample.id_of Sample.oid_b) eq_refl) as [Hmiss _].
    destruct Hmiss as (f & Hr & _).
    + intros d Hd. apply list_elem_of_singleton in Hd as ->. vm_compute. discriminate.
    + eexists. rewrite Hr. done.
  - destruct (delete_by_id_responses (Sample.request ∅ {[ "id" := Sample.oid_a ]} ∅)
                Sample.world) as [H _].
    destruct (H (Sample.id_of Sample.oid_a) eq_refl) as [_ Hhit].
    destruct (Hhit Sample.stored_cesta) as (pre & x & post & Hc & _ & _ & Hr).
    + left.
    + reflexivity.
    + do 2 eexists. split; [exact Hr|]. split; [done|]. simpl.
      destruct pre as [|? [|? ?]]; destruct post; simpl in Hc; try discriminate Hc; done.
  - destruct (delete_by_id_responses (Sample.request ∅ {[ "id" := u8 "abc" ]} ∅)
                Sample.world) as (_ & H & _).
    eexists. apply H. reflexivity.
Defined.

(** ** Creating and updating *)

Section Create.
Context {driver : Driver}.

Lemma nome_after_lookup b k : k <> "nome" -> nome_after b !! k = b !! k.
Proof.
  intros Hk. unfold nome_after. case_decide; [done|].
  unfold Check.set. simpl. by rewrite lookup_insert_ne.
Qed.

Lemma sanitized_lookup req k :
  k <> "nome" -> body (sanitized req) !! k = body req !! k.
Proof. intros Hk. rewrite sanitized_eq. simpl. by apply nome_after_lookup. Qed.

Lemma post_accepted req w :
  validationResult req = [] ->
  post_route req w
  = try_catch
      (beneficio <- insertOne (body (sanitized req)) ;; ret (respond 201 beneficio))
      (fun err => ret (respond 500 (VObj {[ "message" := VStr (err ++ u8 " Erro no Server") ]})))
      w.
Proof.
  intros H. rewrite post_route_eq. unfold post_handler, try_catch.
  by rewrite H.
Qed.

Lemma post_created req w id :
  validationResult req = [] ->
  id = default (VOid (next_oid w)) (body req !! "_id") ->
  is_array id = false ->
  Some id ∉ ids (coll w) ->
  post_route req w
  = (inr (respond 201 (VObj {[ "acknowledged" := VBool true; "insertedId" := id ]})),
     {| coll := coll w ++ [<["_id" := id]> (body (sanitized req))];
        next_oid := match body req !! "_id" with
                    | Some _ => next_oid w
                    | None => (next_oid w + 1)%N
                    end;
        calls := calls w ++ [InsertOne (body (sanitized req))] |}).
Proof.
  intros H -> Harr Hnew. rewrite (post_accepted _ _ H).
  unfold insertOne; run. cbn.
  rewrite (sanitized_lookup req "_id") by done.
  destruct (body req !! "_id") as [v|]; simpl in *.
  - rewrite Harr. by rewrite bool_decide_eq_false_2.
  - by rewrite bool_decide_eq_false_2.
Qed.

End Create.




Section Update.
Context {driver : Driver}.



Lemma union_without_id (fields d : Doc) k :
  fields !! "_id" = None ->
  (fields ∪ d) !! k
  = if decide (k = "_id") then d !! "_id"
    else match fields !! k with Some v => Some v | None => d !! k end.
Proof.
  intros Hid. rewrite lookup_union. case_decide as Hk.
  - subst k. rewrite Hid. by destruct (d !! "_id").
  - destruct (fields !! k), (d !! k); done.
Qed.

Lemma ids_update_first (t : Doc -> bool) (g : Doc -> Doc) (c : list Doc) :
  (forall d, g d !! "_id" = d !! "_id") -> ids (update_first t g c) = ids c.
Proof.
  intros Hg. unfold ids. induction c as [|d c IH]; [done|]. simpl update_first.
  destruct (t d); rewrite !fmap_cons; [by rewrite Hg|by rewrite IH].
Qed.

Lemma put_accepted req w o :
  validationResult req = [] ->
  ObjectId (body req !! "_id") = inr o ->
  put_route req w
  = try_catch
      (beneficio <- updateOne (IdEq o) (delete "_id" (body (sanitized req))) ;;
       ret (respond 202 beneficio))
      (fun err => ret (respond 500 (VObj {[ "errors" := VStr err ]})))
      w.
Proof.
  intros H Ho. rewrite put_route_eq. unfold put_handler, try_catch. rewrite H.
  cbn. rewrite (sanitized_lookup req "_id") by done.
  unfold bind at 1, lift. by rewrite Ho.
Qed.

Lemma put_missing req w o :
  validationResult req = [] ->
  ObjectId (body req !! "_id") = inr o ->
  List.find (has_id o) (coll w) = None ->
  put_route req w
  = (inr (respond 202 (update_result 0 0)),
     {| coll := coll w; next_oid := next_oid w;
        calls := calls w ++ [UpdateOne (IdEq o) (delete "_id" (body (sanitized req)))] |}).
Proof.
  intros H Ho Hf. rewrite (put_accepted _ _ _ H Ho).
  unfold updateOne; run. cbn. by rewrite Hf.
Qed.

Lemma put_present req w o x :
  validationResult req = [] ->
  ObjectId (body req !! "_id") = inr o ->
  List.find (has_id o) (coll w) = Some x ->
  let fields := delete "_id" (body (sanitized req)) in
  put_route req w
  = (inr (respond 202 (update_result 1 (if bool_decide (fields ∪ x = x) then 0 else 1))),
     {| coll := update_first (has_id o) (fun d => fields ∪ d) (coll w);
        next_oid := next_oid w;
        calls := calls w ++ [UpdateOne (IdEq o) fields] |}).
Proof.
  intros H Ho Hf fields. rewrite (put_accepted _ _ _ H Ho).
  unfold updateOne; run. cbn. rewrite Hf.
  rewrite bool_decide_eq_false_2; [done|].
  rewrite lookup_delete_eq. intros [[v Hv] _]. discriminate Hv.
Qed.

End Update.




(** ** Searching by name *)

Section Search.
Context {driver : Driver}.




End Search.




(** ** The index on [_id] is kept by every route *)

Section Index.
Context {driver : Driver}.

Lemma preserves_ret {A} I (a : A) : preserves I (ret a).
Proof. by intros w. Qed.

Lemma preserves_throw {A} I e : preserves I (@throw A e).
Proof. by intros w. Qed.

Lemma preserves_lift {A} I (r : Exn + A) : preserves I (lift r).
Proof. by intros w. Qed.

Lemma preserves_bind {A B} I (m : M A) (k : A -> M B) :
  preserves I m -> (forall a, preserves I (k a)) -> preserves I (bind m k).
Proof.
  intros Hm Hk w Hw. unfold bind. specialize (Hm w Hw).
  destruct (m w) as [[e|a] w']; [done|]. by apply Hk.
Qed.

Lemma preserves_try_catch {A} I (m : M A) (h : Exn -> M A) :
  preserves I m -> (forall e, preserves I (h e)) -> preserves I (try_catch m h).
Proof.
  intros Hm Hh w Hw. unfold try_catch. specialize (Hm w Hw).
  destruct (m w) as [[e|a] w']; [by apply Hh|done].
Qed.

Lemma preserves_issue c : preserves indexed (issue c).
Proof. by intros w. Qed.

Lemma preserves_find f p : preserves indexed (find f p).
Proof.
  apply preserves_bind; [apply preserves_issue|]. intros _ w Hw.
  unfold indexed in *. simpl.
  destruct (matcher f); [done|]. by destruct p.
Qed.

Lemma unique_ids_snoc (c : list Doc) (d : Doc) :
  unique_ids c -> d !! "_id" ∉ ids c -> unique_ids (c ++ [d]).
Proof.
  unfold unique_ids, ids. intros Hc Hd. rewrite fmap_app. apply NoDup_app.
  split; [done|]. split; [|apply NoDup_singleton].
  intros x Hx Hx'. apply list_elem_of_singleton in Hx'. by subst x.
Qed.

Lemma preserves_insertOne d : preserves indexed (insertOne d).
Proof.
  apply preserves_bind; [apply preserves_issue|]. intros _ w Hw.
  destruct (d !! "_id") as [v|] eqn:E.
  - destruct (is_array v); [done|]. case_bool_decide as Hin; [done|].
    apply unique_ids_snoc; [done|]. by rewrite lookup_insert_eq.
  - simpl. case_bool_decide as Hin; [done|].
    apply unique_ids_snoc; [done|]. by rewrite lookup_insert_eq.
Qed.

Lemma unique_ids_remove_first t (c : list Doc) :
  unique_ids c -> unique_ids (remove_first t c).
Proof.
  unfold unique_ids, ids. induction c as [|d c IH]; [done|].
  rewrite fmap_cons, NoDup_cons. intros [Hd Hc]. simpl. destruct (t d); [done|].
  rewrite fmap_cons, NoDup_cons. split; [|by apply IH].
  intros Hin. apply Hd. clear -Hin. induction c as [|x c IHc]; [done|].
  simpl in Hin. destruct (t x).
  - rewrite fmap_cons. by right.
  - rewrite fmap_cons in *. apply elem_of_cons in Hin as [->|Hin]; [left|right; by apply IHc].
Qed.

Lemma preserves_deleteOne f : preserves indexed (deleteOne f).
Proof.
  apply preserves_bind; [apply preserves_issue|]. intros _ w Hw.
  destruct (matcher f) as [e|t]; [done|].
  destruct (List.find t (coll w)); [|done]. by apply unique_ids_remove_first.
Qed.

Lemma preserves_updateOne f fields : preserves indexed (updateOne f fields).
Proof.
  apply preserves_bind; [apply preserves_issue|]. intros _ w Hw.
  destruct (matcher f) as [e|t]; [done|].
  destruct (List.find t (coll w)) as [x|] eqn:Hf; [|done].
  case_bool_decide as Hg; [done|]. unfold indexed, unique_ids. simpl.
  destruct (find_split _ _ _ Hf) as (pre & post & Hc & _ & _ & _ & Hup).
  rewrite Hup. unfold indexed, unique_ids in Hw. rewrite Hc in Hw.
  unfold ids in *. rewrite fmap_app, fmap_cons in *.
  assert (Hid : (fields ∪ x) !! "_id" = x !! "_id"); [|by rewrite Hid].
  rewrite lookup_union. destruct (fields !! "_id") as [v|] eqn:E.
  - destruct (decide (Some v = x !! "_id")) as [Hv|Hv].
    + rewrite <- Hv. done.
    + exfalso. apply Hg. split; [by eexists|done].
  - by destruct (x !! "_id").
Qed.

Create HintDb index discriminated.

#[local] Hint Resolve preserves_ret preserves_throw preserves_lift preserves_bind
  preserves_try_catch preserves_find preserves_insertOne preserves_deleteOne
  preserves_updateOne : index.

(** The six routes keep the stored identifiers pairwise distinct. *)
Theorem routes_keep_index (req : Request) :
  preserves indexed (get_list req)
  /\ preserves indexed (get_by_id req)
  /\ preserves indexed (get_by_nome req)
  /\ preserves indexed (delete_by_id req)
  /\ preserves indexed (post_route req)
  /\ preserves indexed (put_route req).
Proof.
  repeat apply conj.
  - unfold get_list. auto 6 with index.
  - unfold get_by_id. auto 6 with index.
  - unfold get_by_nome. apply preserves_try_catch; [|auto with index].
    apply preserves_bind; [destruct (params req !! "filtro")|]; auto 6 with index.
  - unfold delete_by_id. apply preserves_bind; [auto with index|]. intros id.
    apply preserves_bind; [auto with index|]. intros r.
    destruct (deletedCount r =? 0); auto with index.
  - intros w. rewrite post_route_eq. revert w. unfold post_handler.
    apply preserves_try_catch; [|auto with index].
    destruct (negb _); auto 6 with index.
  - intros w. rewrite put_route_eq. revert w. unfold put_handler.
    apply preserves_try_catch; [|auto with index].
    destruct (negb _); auto 6 with index.
Qed.

Lemma reachable_indexed w : reachable w -> indexed w.
Proof.
  induction 1 as [w Hw|w e req _ IH]; [exact Hw|].
  destruct (routes_keep_index req) as (H1 & H2 & H3 & H4 & H5 & H6).
  destruct e; [apply H1|apply H2|apply H3|apply H4|apply H5|apply H6]; exact IH.
Qed.

End Index.

(** * Further properties of the route group *)

(** ** What every route does and never does *)

Section Frames.
Context {driver : Driver}.

Lemma filter_all (c : list Doc) : List.filter (fun _ => true) c = c.
Proof. induction c as [|d c IH]; [done|]. simpl. by rewrite IH. Qed.

Lemma get_list_eq req w :
  get_list req w
  = (match arrange [("order", 1)] (limit (list_paging req)) (skip (list_paging req)) (coll w) with
     | inr docs => inr (respond 200 (docs_json docs))
     | inl e =>
         inr (respond 500
                (VObj {[ "message" := str "Erro ao obter a listagem dos benefícios";
                         "error" := VStr e ]}))
     end,
     {| coll := coll w; next_oid := next_oid w;
        calls := calls w ++ [Find All (Some (list_paging req))] |}).
Proof.
  unfold get_list, find; run; simpl. rewrite filter_all.
  fold (list_paging req). by destruct (arrange _ _ _ _).
Qed.

Lemma get_by_nome_eq req w p :
  params req !! "filtro" = Some p ->
  get_by_nome req w
  = (match compile p (u8 "i") with
     | inr t => inr (respond 200 (docs_json (List.filter (nome_test t) (coll w))))
     | inl e =>
         inr (respond 500
                (error_envelope e "Erro ao obter o benefícios pelo nome" "/nome/:filtro"))
     end,
     {| coll := coll w; next_oid := next_oid w;
        calls := calls w ++ [Find (OrNomeRegex p (u8 "i")) None] |}).
Proof.
  intros Hp. unfold get_by_nome, find; run. rewrite Hp. cbn.
  by destruct (compile p (u8 "i")).
Qed.

Lemma get_by_nome_no_param req w :
  params req !! "filtro" = None ->
  exists e,
    get_by_nome req w
    = (inr (respond 500
              (error_envelope e "Erro ao obter o benefícios pelo nome" "/nome/:filtro")), w).
Proof.
  intros Hp. unfold get_by_nome, find; run. rewrite Hp. by eexists.
Qed.

Lemma post_refused req w :
  validationResult req = [] ->
  let id := default (VOid (next_oid w)) (body req !! "_id") in
  is_array id = true \/ Some id ∈ ids (coll w) ->
  exists e,
    post_route req w
    = (inr (respond 500 (VObj {[ "message" := VStr (e ++ u8 " Erro no Server") ]})),
       {| coll := coll w; next_oid := next_oid w;
          calls := calls w ++ [InsertOne (body (sanitized req))] |}).
Proof.
  intros H id Hbad. rewrite (post_accepted _ _ H). unfold insertOne; run. cbn.
  rewrite (sanitized_lookup req "_id") by done. subst id.
  destruct (body req !! "_id") as [v|]; simpl in *.
  - destruct (is_array v) eqn:Ha; [by eexists|].
    destruct Hbad as [?|Hin]; [done|]. rewrite bool_decide_eq_true_2 by done. by eexists.
  - destruct Hbad as [?|Hin]; [done|]. rewrite bool_decide_eq_true_2 by done. by eexists.
Qed.

Lemma put_malformed req w e :
  validationResult req = [] ->
  ObjectId (body req !! "_id") = inl e ->
  put_route req w = (inr (respond 500 (VObj {[ "errors" := VStr e ]})), w).
Proof.
  intros H He. rewrite put_route_eq. unfold put_handler, try_catch. rewrite H.
  cbn. rewrite (sanitized_lookup req "_id") by done.
  unfold bind, lift. by rewrite He.
Qed.

(** Every way a request can go, endpoint by endpoint. *)
Lemma dispatch_summary e req w :
  let r := dispatch e req w in
  (calls r.2 = calls w \/ exists c, own_call e c /\ calls r.2 = calls w ++ [c])
  /\ (reads e = true -> coll r.2 = coll w /\ next_oid r.2 = next_oid w)
  /\ ((exists resp, r.1 = inr resp /\ status resp ∈ statuses e)
      \/ (e = DELETE_id
          /\ exists err, ObjectId (VStr <$> params req !! "id") = inl err /\ r = (inl err, w))).
Proof.
  intros r. subst r.
  assert (S2 : forall (x y : Z) l, y ∈ x :: y :: l) by (intros; right; left).
  assert (S3 : forall (x y z : Z) l, z ∈ x :: y :: z :: l) by (intros; right; right; left).
  assert (S1 : forall (x : Z) l, x ∈ x :: l) by (intros; left).
  destruct e; cbn [dispatch reads statuses].
  - rewrite get_list_eq. cbn [fst snd calls coll next_oid].
    split; [right; eexists; split; [|reflexivity]; exact I|]. split; [done|]. left.
    destruct (arrange _ _ _ _); eexists; (split; [reflexivity|]); cbn; auto.
  - destruct (ObjectId (VStr <$> params req !! "id")) as [err|o] eqn:Ho.
    + rewrite (get_by_id_malformed _ _ _ Ho). cbn [fst snd calls coll next_oid].
      split; [by left|]. split; [done|].
      left. eexists; split; [reflexivity|]. cbn; auto.
    + rewrite (get_by_id_found _ _ _ Ho). cbn [fst snd calls coll next_oid].
      split; [right; eexists; split; [|reflexivity]; exact I|]. split; [done|].
      left. eexists; split; [reflexivity|]. cbn; auto.
  - destruct (params req !! "filtro") as [p|] eqn:Hp.
    + rewrite (get_by_nome_eq _ _ _ Hp). cbn [fst snd calls coll next_oid].
      split; [right; eexists; split; [|reflexivity]; exact I|]. split; [done|].
      left. destruct (compile _ _); eexists; (split; [reflexivity|]); cbn; auto.
    + destruct (get_by_nome_no_param _ w Hp) as (err & ->). cbn [fst snd calls coll next_oid].
      split; [by left|]. split; [done|].
      left. eexists; split; [reflexivity|]. cbn; auto.
  - split; [|split; [done|]].
    + destruct (ObjectId (VStr <$> params req !! "id")) as [err|o] eqn:Ho.
      * rewrite (delete_by_id_malformed _ _ _ Ho). by left.
      * destruct (List.find (has_id o) (coll w)) eqn:Hf.
        -- rewrite (delete_by_id_present _ _ _ _ Ho Hf). right. eexists. split; [|reflexivity]. exact I.
        -- rewrite (delete_by_id_missing _ _ _ Ho Hf). right. eexists. split; [|reflexivity]. exact I.
    + destruct (ObjectId (VStr <$> params req !! "id")) as [err|o] eqn:Ho.
      * right. split; [done|]. exists err. split; [done|]. by apply delete_by_id_malformed.
      * left. destruct (List.find (has_id o) (coll w)) eqn:Hf.
        -- rewrite (delete_by_id_present _ _ _ _ Ho Hf).
           eexists; split; [reflexivity|]. cbn; auto.
        -- rewrite (delete_by_id_missing _ _ _ Ho Hf).
           eexists; split; [reflexivity|]. cbn; auto.
  - split; [|split; [done|left]].
    + destruct (decide (validationResult req = [])) as [H|H].
      * destruct (is_array (default (VOid (next_oid w)) (body req !! "_id"))) eqn:Ha.
        { destruct (post_refused req w H (or_introl Ha)) as (err & ->). right. eexists. split; [|reflexivity]. exact I. }
        destruct (decide (Some (default (VOid (next_oid w)) (body req !! "_id")) ∈ ids (coll w)))
          as [Hin|Hin].
        { destruct (post_refused req w H (or_intror Hin)) as (err & ->). right. eexists. split; [|reflexivity]. exact I. }
        rewrite (post_created req w _ H eq_refl Ha Hin). right. eexists. split; [|reflexivity]. exact I.
      * rewrite (post_rejected _ _ H). by left.
    + destruct (decide (validationResult req = [])) as [H|H].
      * destruct (is_array (default (VOid (next_oid w)) (body req !! "_id"))) eqn:Ha.
        { destruct (post_refused req w H (or_introl Ha)) as (err & ->).
          eexists; split; [reflexivity|]. cbn; auto. }
        destruct (decide (Some (default (VOid (next_oid w)) (body req !! "_id")) ∈ ids (coll w)))
          as [Hin|Hin].
        { destruct (post_refused req w H (or_intror Hin)) as (err & ->).
          eexists; split; [reflexivity|]. cbn; auto. }
        rewrite (post_created req w _ H eq_refl Ha Hin).
        eexists; split; [reflexivity|]. cbn; auto.
      * rewrite (post_rejected _ _ H). eexists; split; [reflexivity|]. cbn; auto.
  - split; [|split; [done|left]].
    + destruct (decide (validationResult req = [])) as [H|H].
      * destruct (ObjectId (body req !! "_id")) as [err|o] eqn:Ho.
        { rewrite (put_malformed _ _ _ H Ho). by left. }
        destruct (List.find (has_id o) (coll w)) eqn:Hf.
        -- rewrite (put_present _ _ _ _ H Ho Hf). right. eexists. split; [|reflexivity]. exact I.
        -- rewrite (put_missing _ _ _ H Ho Hf). right. eexists. split; [|reflexivity]. exact I.
      * rewrite (put_rejected _ _ H). by left.
    + destruct (decide (validationResult req = [])) as [H|H].
      * destruct (ObjectId (body req !! "_id")) as [err|o] eqn:Ho.
        { rewrite (put_malformed _ _ _ H Ho). eexists; split; [reflexivity|]. cbn; auto. }
        destruct (List.find (has_id o) (coll w)) eqn:Hf.
        -- rewrite (put_present _ _ _ _ H Ho Hf). eexists; split; [reflexivity|]. cbn; auto.
        -- rewrite (put_missing _ _ _ H Ho Hf). eexists; split; [reflexivity|]. cbn; auto.
      * rewrite (put_rejected _ _ H). eexists; split; [reflexivity|]. cbn; auto.
Qed.

End Frames.

(** X1.  A request makes at most one driver call, and only the call its
    handler is written with: a [GET] asks for a [find] and nothing else,
    the create route for an [insertOne], the update route for an
    [updateOne], the delete route for a [deleteOne]. *)
Theorem one_call_of_its_kind `{driver : Driver} (e : Endpoint) (req : Request) (w : World) :
  calls (dispatch e req w).2 = calls w
  \/ exists c, own_call e c /\ calls (dispatch e req w).2 = calls w ++ [c].
Proof. apply (dispatch_summary e req w). Qed.

(** X2.  The three [GET] routes never change what is stored: the
    collection and the identifier counter come out as they went in,
    whatever the answer. *)
Theorem reads_leave_storage `{driver : Driver} (e : Endpoint) (req : Request) (w : World) :
  reads e = true ->
  coll (dispatch e req w).2 = coll w /\ next_oid (dispatch e req w).2 = next_oid w.
Proof. apply (dispatch_summary e req w). Qed.

Lemma reads_leave_storage_witness :
  coll (dispatch GET_nome (Sample.request ∅ {[ "filtro" := u8 "cesta" ]} ∅) Sample.world).2
  = coll Sample.world.
Proof.
  apply (reads_leave_storage GET_nome
           (Sample.request ∅ {[ "filtro" := u8 "cesta" ]} ∅) Sample.world).
  reflexivity.
Defined.

(** X3.  Each route answers with one of the status codes its handler
    names: 200 or 500 for the three reads, 201, 400 or 500 for the create
    route, 202, 400 or 500 for the update route (never 404, also when no
    record has the identifier), 200 or 404 for the delete route, which
    alone may answer nothing: exactly when the identifier constructor
    throws. *)
Theorem statuses_of_endpoint `{driver : Driver} (e : Endpoint) (req : Request) (w : World) :
  (exists resp, (dispatch e req w).1 = inr resp /\ status resp ∈ statuses e)
  \/ (e = DELETE_id
      /\ exists err,
           ObjectId (VStr <$> params req !! "id") = inl err
           /\ dispatch e req w = (inl err, w)).
Proof. apply (dispatch_summary e req w). Qed.

(** X4.  The list route asks the server for the whole collection under
    its paging, and answers 200 with the documents the server gives, or
    500 with [message] and [error] (the exception's message) when the
    server refuses; it stores nothing either way. *)
Theorem list_answers `{driver : Driver} (req : Request) (w : World) :
  exists pg,
    calls (get_list req w).2 = calls w ++ [Find All (Some pg)]
    /\ coll (get_list req w).2 = coll w
    /\ (forall docs, arrange (sort pg) (limit pg) (skip pg) (coll w) = inr docs ->
          (get_list req w).1 = inr (respond 200 (VArr (VObj <$> docs))))
    /\ (forall e, arrange (sort pg) (limit pg) (skip pg) (coll w) = inl e ->
          (get_list req w).1
          = inr (respond 500
                   (VObj {[ "message" := str "Erro ao obter a listagem dos benefícios";
                            "error" := VStr e ]}))).
Proof.
  exists (list_paging req). rewrite get_list_eq. cbn [fst snd calls coll sort list_paging].
  split; [done|]. split; [done|]. split.
  - by intros docs ->.
  - by intros e ->.
Qed.

Lemma list_answers_witness :
  (get_list (Sample.request {[ "limit" := u8 "5" ]} ∅ ∅) Sample.world).1
  = inr (respond 200 (VArr [VObj Sample.stored_cesta])).
Proof.
  destruct (list_answers (Sample.request {[ "limit" := u8 "5" ]} ∅ ∅) Sample.world)
    as (pg & Hc & _ & Hok & _).
  apply (Hok [Sample.stored_cesta]).
  vm_compute in Hc. injection Hc as <-. reflexivity.
Defined.

(** X5.  A filter with a metacharacter is judged by the server's
    expression engine.  When the engine rejects it, the search answers 500
    with the error object of [value] (the engine's message), [msg] and
    [param]; when the engine compiles it, the search answers 200 with the
    stored documents whose [nome] passes the compiled test.  The collection
    is unchanged. *)
Theorem search_by_expression `{driver : Driver} (req : Request) (w : World)
    (p : jsstring) :
  params req !! "filtro" = Some p ->
  Literal.is_literal p = false ->
  coll (get_by_nome req w).2 = coll w
  /\ (forall e, regex_engine p (u8 "i") = inl e ->
        (get_by_nome req w).1
        = inr (respond 500
                 (VObj {[ "errors" :=
                            VArr [VObj {[ "value" := VStr e;
                                          "msg" := str "Erro ao obter o benefícios pelo nome";
                                          "param" := str "/nome/:filtro" ]}] ]})))
  /\ (forall t, regex_engine p (u8 "i") = inr t ->
        (get_by_nome req w).1
        = inr (respond 200 (VArr (VObj <$> List.filter (nome_test t) (coll w))))).
Proof.
  intros Hp Hl. rewrite (get_by_nome_eq _ _ _ Hp). cbn [fst snd coll].
  unfold compile. rewrite Hl, andb_false_r.
  split; [done|]. split.
  - by intros e ->.
  - by intros t ->.
Qed.

Lemma search_by_expression_witness :
  exists v, (get_by_nome (Sample.request ∅ {[ "filtro" := u8 "ces(ta" ]} ∅) Sample.world).1
            = inr (respond 500 v).
Proof.
  destruct (search_by_expression (Sample.request ∅ {[ "filtro" := u8 "ces(ta" ]} ∅)
              Sample.world (u8 "ces(ta")) as (_ & Hbad & _); [reflexivity|reflexivity|].
  eexists. apply Hbad. reflexivity.
Defined.





(** X8.  The update route never creates, removes or re-identifies a
    record: whatever the request and the answer, the stored identifiers
    are the same, in the same order, after it. *)
Theorem update_keeps_identifiers `{driver : Driver} (req : Request) (w : World) :
  ids (coll (put_route req w).2) = ids (coll w).
Proof.
  destruct (decide (validationResult req = [])) as [H|H].
  - destruct (ObjectId (body req !! "_id")) as [err|o] eqn:Ho.
    { by rewrite (put_malformed _ _ _ H Ho). }
    destruct (List.find (has_id o) (coll w)) eqn:Hf.
    + rewrite (put_present _ _ _ _ H Ho Hf). cbn [snd coll].
      apply ids_update_first. intros d.
      rewrite (union_without_id _ _ "_id") by apply lookup_delete_eq.
      by rewrite decide_True.
    + by rewrite (put_missing _ _ _ H Ho Hf).
  - by rewrite (put_rejected _ _ H).
Qed.

(** ** Writing, then reading *)

Section RoundTrips.
Context {driver : Driver}.


Lemma no_id_after_remove o (c : list Doc) :
  unique_ids c -> List.filter (has_id o) (remove_first (has_id o) c) = [].
Proof.
  unfold unique_ids, ids. induction c as [|d c IH]; [done|].
  rewrite fmap_cons, NoDup_cons. intros [Hd Hc]. simpl.
  destruct (has_id o d) eqn:E.
  - apply filter_has_id_nil. apply bool_decide_eq_true in E. by rewrite <- E.
  - simpl. rewrite E. by apply IH.
Qed.

Lemma filter_other_after_remove o o' (c : list Doc) :
  o' <> o ->
  List.filter (has_id o') (remove_first (has_id o) c) = List.filter (has_id o') c.
Proof.
  intros Hne. induction c as [|d c IH]; [done|]. simpl.
  destruct (has_id o d) eqn:E.
  - apply bool_decide_eq_true in E.
    assert (E2 : has_id o' d = false).
    { apply bool_decide_eq_false. rewrite E. congruence. }
    by rewrite E2.
  - simpl. by rewrite IH.
Qed.



End RoundTrips.



(** X10.  Once a delete by an accepted identifier has run on an indexed
    collection, no record has this identifier: reading it answers 200 with
    the empty array and deleting it again answers 404; and every record
    with another identifier is read as before. *)
Theorem delete_then_gone `{driver : Driver} (req req' : Request) (w : World) (o o' : N) :
  ObjectId (VStr <$> params req !! "id") = inr o ->
  unique_ids (coll w) ->
  let w1 := (delete_by_id req w).2 in
  (get_by_id req w1).1 = inr (respond 200 (VArr []))
  /\ (exists v, (delete_by_id req w1).1 = inr (respond 404 v))
  /\ (ObjectId (VStr <$> params req' !! "id") = inr o' -> o' <> o ->
      (get_by_id req' w1).1 = (get_by_id req' w).1).
Proof.
  intros Ho Hu w1.
  assert (Hcoll : coll w1 = remove_first (has_id o) (coll w) \/
                  (coll w1 = coll w /\ List.find (has_id o) (coll w) = None)).
  { subst w1. destruct (List.find (has_id o) (coll w)) eqn:Hf.
    - left. by rewrite (delete_by_id_present _ _ _ _ Ho Hf).
    - right. by rewrite (delete_by_id_missing _ _ _ Ho Hf). }
  assert (Hgone : List.filter (has_id o) (coll w1) = []).
  { destruct Hcoll as [->|[-> Hf]]; [by apply no_id_after_remove|].
    apply filter_has_id_nil. unfold ids. rewrite list_elem_of_fmap.
    intros (d & Hd & Hin). by apply (proj1 (find_has_id_None _ _) Hf d Hin). }
  split; [|split].
  - rewrite (get_by_id_found _ _ _ Ho). cbn [fst]. by rewrite Hgone.
  - eexists. rewrite (delete_by_id_missing _ _ _ Ho); [reflexivity|].
    apply find_has_id_None. intros d Hd Hid.
    assert (Hin : d ∈ List.filter (has_id o) (coll w1)) by by apply elem_of_filter_has_id.
    rewrite Hgone in Hin. by apply elem_of_nil in Hin.
  - intros Ho' Hne. rewrite !(get_by_id_found _ _ _ Ho'). cbn [fst].
    destruct Hcoll as [->|[-> _]]; [|done]. by rewrite filter_other_after_remove.
Qed.

Lemma delete_then_gone_witness :
  let req := Sample.request ∅ {[ "id" := Sample.oid_a ]} ∅ in
  (get_by_id req (delete_by_id req Sample.world).2).1 = inr (respond 200 (VArr [])).
Proof.
  intros req.
  apply (delete_then_gone req req Sample.world (Sample.id_of Sample.oid_a) 0).
  - reflexivity.
  - apply NoDup_singleton.
Defined.



(** ** Trimming *)

Section Trimming.











End Trimming.

(** ** More on the rule list *)

Section Rules.

Lemma get_top (k : string) (b : Doc) :
  Check.segments k = [k] -> Check.get k b = b !! k.
Proof. intros H. unfold Check.get. rewrite H. simpl. by destruct (b !! k). Qed.





Lemma violations_nil r b :
  violations r b = []
  <-> Forall (fun x => rule_holds r (Check.toString x) = true)
             (Check.elements (rule_input r b)).
Proof.
  unfold violations. induction (Check.elements (rule_input r b)) as [|x l IH].
  - split; [constructor|done].
  - rewrite filter_cons, Forall_cons. case_decide as E.
    + split; [done|]. intros [Hx _]. congruence.
    + rewrite IH. split; [|tauto]. intros Hl. split; [|done].
      by destruct (rule_holds r (Check.toString x)).
Qed.

Lemma failures_nil r b : failures r b = [] <-> violations r b = [].
Proof. unfold failures. split; [apply fmap_nil_inv|by intros ->]. Qed.

Lemma accepted_rules req :
  validationResult req = [] <-> forall r, r ∈ rules -> violations r (body req) = [].
Proof.
  split.
  - intros H r Hr. apply failures_nil.
    destruct (failures r (body req)) as [|e l] eqn:E; [done|].
    assert (He : e ∈ validationResult req).
    { apply in_validationResult. exists r. split; [done|]. rewrite E. left. }
    rewrite H in He. by apply elem_of_nil in He.
  - intros H. destruct (validationResult req) as [|e l] eqn:E; [done|].
    assert (He : e ∈ validationResult req) by (rewrite E; left).
    apply in_validationResult in He as (r & Hr & He).
    rewrite (proj2 (failures_nil r _) (H r Hr)) in He. by apply elem_of_nil in He.
Qed.




Lemma date_shaped_spec s : StrCheck.matches date_pattern s = true <-> date_shaped s.
Proof.
  unfold date_shaped. split.
  - unfold date_pattern. cbn [StrCheck.matches StrCheck.repeat_ok StrCheck.atom_ok].
    intros H.
    repeat (destruct s as [|? s]; [discriminate H|];
            match type of H with
            | context [Js.is_digit ?c] =>
                destruct (Js.is_digit c) eqn:?; [|discriminate H]
            | context [(?c =? 45)%N] =>
                destruct (N.eqb_spec c 45); [subst c|discriminate H]
            end).
    destruct s; [|discriminate H].
    eexists [_; _; _; _], [_; _], [_; _]. split; [reflexivity|].
    repeat split; repeat constructor; done.
  - intros (y & m & d & -> & Hy & Hm & Hd & Hall).
    do 5 (destruct y as [|? y]; try discriminate Hy).
    do 3 (destruct m as [|? m]; try discriminate Hm).
    do 3 (destruct d as [|? d]; try discriminate Hd).
    simpl in Hall.
    apply Forall_cons in Hall as [E1 Hall]. apply Forall_cons in Hall as [E2 Hall].
    apply Forall_cons in Hall as [E3 Hall]. apply Forall_cons in Hall as [E4 Hall].
    apply Forall_cons in Hall as [E5 Hall]. apply Forall_cons in Hall as [E6 Hall].
    apply Forall_cons in Hall as [E7 Hall]. apply Forall_cons in Hall as [E8 Hall].
    unfold date_pattern. cbn. rewrite E1, E2, E3, E4. cbn. rewrite E5, E6. cbn.
    by rewrite E7, E8.
Qed.

End Rules.









(** X16.  The date rule looks at the shape only: a text passes it exactly
    when it is four digits, a dash, two digits, a dash, two digits,
    whatever month or day the digits name.  So the [data] text of an
    accepted payload has this shape, and a [data] text of this shape is
    never reported. *)
Theorem date_rule_is_shape_only (req : Request) (s : jsstring) :
  body req !! "data" = Some (VStr s) ->
  (violated rule_data (body req) <-> ~ date_shaped s)
  /\ (validationResult req = [] -> date_shaped s).
Proof.
  intros Hd.
  assert (Hget : Check.get "data" (body req) = Some (VStr s)) by by rewrite (get_top "data").
  assert (Hv : violations rule_data (body req) = [] <-> date_shaped s).
  { rewrite violations_nil. cbn [rule_input rule_holds rule_data]. unfold sent.
    rewrite Hget. simpl. rewrite <- date_shaped_spec. split.
    - by intros [Hs _]%Forall_cons.
    - intros Hs. by constructor. }
  split.
  - unfold violated. rewrite <- Hv. split; [done|].
    intros Hn E. by apply Hn.
  - intros H. apply Hv. apply (proj1 (accepted_rules req) H).
    unfold rules. do 7 right. left.
Qed.

Lemma date_rule_is_shape_only_witness :
  ~ violated rule_data (<["data" := str "9999-99-99"]> Sample.cesta).
Proof.
  destruct (date_rule_is_shape_only
              (Sample.request ∅ ∅ (<["data" := str "9999-99-99"]> Sample.cesta))
              (u8 "9999-99-99")) as [Hv _]; [reflexivity|].
  intros Hbad. apply Hv in Hbad. apply Hbad. apply date_shaped_spec. reflexivity.
Defined.

(** ** Numbers written in decimal and read back *)

Section Decimal.







End Decimal.



(** ** More on the search by name *)

Section SearchMore.
Context {driver : Driver}.




Lemma nome_test_needs_text t d :
  nome_test t d = true ->
  (exists s, d !! "nome" = Some (VStr s) /\ t s = true)
  \/ (exists l s, d !! "nome" = Some (VArr l) /\ VStr s ∈ l /\ t s = true).
Proof.
  unfold nome_test. destruct (d !! "nome") as [[]|]; try done.
  - intros H. left. by eexists.
  - intros H. right. apply existsb_exists in H as (x & Hx & Ht).
    destruct x; try done. exists l, s. split; [done|]. split; [|done].
    by apply list_elem_of_In.
Qed.

End SearchMore.



(** X19.  Whatever the filter, the search answers 200 only with stored
    records that have a [nome] the expression matches: a text, or an array
    holding such a text.  A record without [nome], or whose [nome] is a
    number, a boolean, [null] or an object, is never returned. *)
Theorem search_returns_named_records `{driver : Driver} (req : Request) (w : World)
    (docs : list Doc) :
  (get_by_nome req w).1 = inr (respond 200 (VArr (VObj <$> docs))) ->
  forall d, d ∈ docs ->
    d ∈ coll w
    /\ ((exists s, d !! "nome" = Some (VStr s))
        \/ (exists l s, d !! "nome" = Some (VArr l) /\ VStr s ∈ l)).
Proof.
  intros H d Hd.
  destruct (params req !! "filtro") as [p|] eqn:Hp.
  2:{ destruct (get_by_nome_no_param req w Hp) as (e & E). rewrite E in H. discriminate H. }
  rewrite (get_by_nome_eq _ _ _ Hp) in H. cbn [fst] in H.
  destruct (compile p (u8 "i")) as [e|t]; [discriminate H|].
  unfold respond, docs_json in H.
  assert (Hinj : forall l1 l2 : list Doc, VObj <$> l1 = VObj <$> l2 -> l1 = l2).
  { induction l1 as [|x l1 IH]; intros [|y l2] E; try done.
    injection E as -> E. f_equal. by apply IH. }
  assert (E : VObj <$> List.filter (nome_test t) (coll w) = VObj <$> docs) by congruence.
  apply Hinj in E. subst docs.
  apply list_elem_of_In, filter_In in Hd as [Hin Ht]. apply list_elem_of_In in Hin.
  split; [done|].
  destruct (nome_test_needs_text _ _ Ht) as [(s & Hs & _)|(l & s & Hl & Hs & _)].
  - left. by eexists.
  - right. by exists l, s.
Qed.

Lemma search_returns_named_records_witness :
  Sample.stored_cesta ∈ coll Sample.world.
Proof.
  apply (search_returns_named_records
           (Sample.request ∅ {[ "filtro" := u8 "cesta" ]} ∅) Sample.world
           [Sample.stored_cesta]); [reflexivity|left].
Defined.


(** X21.  The index on [_id] is an invariant of the service: started on
    a collection whose identifiers are pairwise distinct, it has such a
    collection after any sequence of requests to its six routes, whatever
    they answer. *)
Theorem index_is_invariant `{driver : Driver} (w : World) :
  reachable w ->
  unique_ids (coll w)
  /\ forall e req, unique_ids (coll (dispatch e req w).2).
Proof.
  intros Hw. split.
  - by apply reachable_indexed.
  - intros e req. change (indexed (dispatch e req w).2).
    apply reachable_indexed. exact (reachable_step w e req Hw).
Qed.

Lemma index_is_invariant_witness :
  unique_ids (coll (dispatch POST_root (Sample.request ∅ ∅ Sample.cesta) Sample.world).2).
Proof.
  assert (H : reachable Sample.world).
  { apply reachable_start. apply NoDup_singleton. }
  exact (proj2 (index_is_invariant Sample.world H)
           POST_root (Sample.request ∅ ∅ Sample.cesta)).
Defined.
